(** * Buckets collection of textile (package threaddb): a shallow embedding

    The development follows [threaddb/buckets.go]: the bucket record and its
    item map, [UpsertItemAtPath], the normalisation run by [SaveSafe], the
    write validator registered with the collection, bucket creation with the
    provisioning of a Powergate FFS instance, and [ArchiveStatus].

    Conventions of the embedding.
    - A Go slice or map can be nil.  Both are modelled as an [option]:
      [None] is the nil container, [Some l] a non-nil one (possibly empty).
      [len] of a nil slice is 0, reading a nil map yields the zero value,
      writing into a nil map panics.
    - A Go [int64] is a [Z]; no arithmetic is performed on the time stamps.
    - A run-time panic is an explicit result ([Panic]); a returned Go
      [error] is an ordinary value.
    - Calls into collaborators that are not part of this file (the thread
      store, the Powergate client, the FFS instance collection) are
      fields of records of operations over an abstract world state. *)

From Stdlib Require Import ZArith String List Lia.
From stdpp Require Import base option strings list gmap.

Local Open Scope string_scope.
Local Open Scope Z_scope.

(** ** Go containers *)

(** [len(s)] for a slice that may be nil. *)
Definition len {A : Type} (s : option (list A)) : nat :=
  match s with
  | None => 0%nat
  | Some l => length l
  end.

(** A result that may be a run-time panic. *)
Inductive outcome (A : Type) : Type :=
  | Done (a : A)
  | Panic (msg : string).
Arguments Done {A} a.
Arguments Panic {A} msg.

(** ** Errors *)

(** Go [error] values: the sentinel [buckets.ErrNoCurrentArchive] and the
    values built by [fmt.Errorf] or handed back by a collaborator, which are
    known by their text. *)
Inductive GoError : Type :=
  | ErrNoCurrentArchive
  | Errorf (msg : string).

(** Modelled from the spec: the text of [buckets.ErrNoCurrentArchive], a
    sentinel declared in package [buckets]; the spec calls it the
    "no current archive" condition. *)
Definition ErrNoCurrentArchive_text : string := "no current archive".

(** [err.Error()], which is what the verb [%s] prints. *)
Definition Error (e : GoError) : string :=
  match e with
  | ErrNoCurrentArchive => ErrNoCurrentArchive_text
  | Errorf msg => msg
  end.

(** ** Data model *)

(** [time.Time], observed through [UnixNano()]. *)
Record Time : Type := { UnixNano : Z }.

(** [cid.Cid], observed through [String()]. *)
Record Cid : Type := { Cid_String : string }.

(** ACL describes access rules for an item. *)
Record ACL : Type := {
  ACL_Write : option (list string);
  ACL_Read : option (list string);
  ACL_Delete : option (list string)
}.

(** Item describes details about a bucket item (a file or folder). *)
Record Item : Type := {
  Item_Cid : string;
  Item_ACL : ACL;
  Item_CreatedAt : Z;
  Item_UpdatedAt : Z
}.

(** Deal contains details about a Filecoin deal. *)
Record Deal : Type := {
  Deal_ProposalCid : string;
  Deal_Miner : string
}.

(** Archive is a single archive containing a list of deals. *)
Record Archive : Type := {
  Archive_Cid : string;
  Archive_Deals : option (list Deal)
}.

(** Archives contains all archives for a single bucket. *)
Record Archives : Type := {
  Archives_Current : Archive;
  Archives_History : option (list Archive)
}.

(** Bucket represents the buckets threaddb collection schema. *)
Record Bucket : Type := {
  Bucket_Key : string;
  Bucket_Owner : string;
  Bucket_Name : string;
  Bucket_Version : Z;
  Bucket_EncKey : string;
  Bucket_Path : string;
  Bucket_Items : option (gmap string Item);
  Bucket_Archives : Archives;
  Bucket_CreatedAt : Z;
  Bucket_UpdatedAt : Z
}.

(** [const Version = 1] *)
Definition Version : Z := 1.

(** Zero values, as Go produces them for a missing map entry or an
    omitted struct field. *)
Definition zero_ACL : ACL :=
  {| ACL_Write := None; ACL_Read := None; ACL_Delete := None |}.

Definition zero_Item : Item :=
  {| Item_Cid := ""; Item_ACL := zero_ACL;
     Item_CreatedAt := 0; Item_UpdatedAt := 0 |}.

(** Field assignments [b.Items = v] and [b.Archives = v]. *)
Definition set_Items (b : Bucket) (v : option (gmap string Item)) : Bucket :=
  {| Bucket_Key := Bucket_Key b; Bucket_Owner := Bucket_Owner b;
     Bucket_Name := Bucket_Name b; Bucket_Version := Bucket_Version b;
     Bucket_EncKey := Bucket_EncKey b; Bucket_Path := Bucket_Path b;
     Bucket_Items := v; Bucket_Archives := Bucket_Archives b;
     Bucket_CreatedAt := Bucket_CreatedAt b;
     Bucket_UpdatedAt := Bucket_UpdatedAt b |}.

Definition set_Archives (b : Bucket) (v : Archives) : Bucket :=
  {| Bucket_Key := Bucket_Key b; Bucket_Owner := Bucket_Owner b;
     Bucket_Name := Bucket_Name b; Bucket_Version := Bucket_Version b;
     Bucket_EncKey := Bucket_EncKey b; Bucket_Path := Bucket_Path b;
     Bucket_Items := Bucket_Items b; Bucket_Archives := v;
     Bucket_CreatedAt := Bucket_CreatedAt b;
     Bucket_UpdatedAt := Bucket_UpdatedAt b |}.

(** [b.Archives.Current = v] *)
Definition set_Archives_Current (b : Bucket) (v : Archive) : Bucket :=
  set_Archives b
    {| Archives_Current := v;
       Archives_History := Archives_History (Bucket_Archives b) |}.

(** [x, ok := m[k]] on a map that may be nil. *)
Definition map_index (m : option (gmap string Item)) (k : string)
  : Item * bool :=
  match m with
  | None => (zero_Item, false)
  | Some m' =>
      match m' !! k with
      | Some x => (x, true)
      | None => (zero_Item, false)
      end
  end.

(** [m[k] = v]: a write into a nil map is a run-time panic. *)
Definition map_assign (m : option (gmap string Item)) (k : string) (v : Item)
  : outcome (option (gmap string Item)) :=
  match m with
  | None => Panic "assignment to entry in nil map"
  | Some m' => Done (Some (<[k := v]> m'))
  end.

(** ** UpsertItemAtPath *)

(** UpsertItemAtPath adds a new item or updates the existing item at path.
    The receiver is updated in place; the result is the updated bucket
    together with the returned error, which is always nil. *)
Definition UpsertItemAtPath (b : Bucket) (pth : string) (cid : Cid)
    (updated : Time) : outcome (Bucket * option GoError) :=
  let nanos := UnixNano updated in
  let '(x, ok) := map_index (Bucket_Items b) pth in
  if ok && negb (String.eqb (Item_Cid x) (Cid_String cid)) then
    let x' := {| Item_Cid := Cid_String cid; Item_ACL := Item_ACL x;
                 Item_CreatedAt := Item_CreatedAt x;
                 Item_UpdatedAt := nanos |} in
    match map_assign (Bucket_Items b) pth x' with
    | Done items => Done (set_Items b items, None)
    | Panic msg => Panic msg
    end
  else
    let acl : option (list string) :=
      if negb (String.eqb (Bucket_Owner b) "")
      then Some [Bucket_Owner b] else None in
    let fresh := {| Item_Cid := Cid_String cid;
                    Item_ACL := {| ACL_Write := acl; ACL_Read := acl;
                                   ACL_Delete := acl |};
                    Item_CreatedAt := nanos; Item_UpdatedAt := nanos |} in
    match map_assign (Bucket_Items b) pth fresh with
    | Done items => Done (set_Items b items, None)
    | Panic msg => Panic msg
    end.

(** ** Normalisation before a save *)

(** [ensureNoNulls].  The local [current] is copied from the record before
    the inner assignment to [b.Archives.Current], and the final assignment
    to [b.Archives] is built from that copy. *)
Definition ensureNoNulls (b : Bucket) : Bucket :=
  let b1 :=
    match Bucket_Items b with
    | None => set_Items b (Some ∅)
    | Some _ => b
    end in
  if Nat.eqb (len (Archives_History (Bucket_Archives b1))) 0 then
    let current := Archives_Current (Bucket_Archives b1) in
    let b2 :=
      if Nat.eqb (len (Archive_Deals current)) 0
      then set_Archives_Current b1
             {| Archive_Cid := ""; Archive_Deals := Some [] |}
      else b1 in
    set_Archives b2
      {| Archives_Current := current; Archives_History := Some [] |}
  else b1.

(** ** The write validator of the collection

    [bucketsConfig.ValidatorFunc] is a JavaScript function body that the
    store runs on every write with three bindings: [event], [author] and
    [instance].  Its values are JSON documents; a member that is absent or
    null is [None] here, and reading a member of such a value, which
    raises a TypeError in JavaScript, is the verdict [TypeError]. *)

(** What the script returns: [true], a reason string, or an exception. *)
Inductive Verdict : Type :=
  | Accept
  | Reject (reason : string)
  | TypeError.

(** A member of [json_patch.items]: the changed members of one item. *)
Record PatchItem : Type := {
  p_cid : option string;
  p_acl : option ACL;
  p_created_at : option Z;
  p_updated_at : option Z
}.

(** [event.patch.json_patch].  [jp_items] lists the members of [items] in
    the order [Object.keys] enumerates them; a member is an object or the
    JSON null ([None]), which is what a merge patch carries for a removed
    item. *)
Record JsonPatch : Type := {
  jp_owner : option string;
  jp_items : option (list (string * option PatchItem))
}.

(** [event.patch]: the members the script reads.  [patch_owner] is the
    member [owner] of the patch envelope itself, which is not the member
    [owner] of [json_patch] nor the owner of the instance. *)
Record EventPatch : Type := {
  patch_type : string;
  patch_json_patch : option JsonPatch;
  patch_owner : option string
}.

Record Event : Type := { event_patch : EventPatch }.

(** [a !== s] where [s] is a string and [a] may be undefined. *)
Definition strict_ne (a : option string) (s : string) : bool :=
  match a with
  | Some a' => negb (String.eqb a' s)
  | None => true
  end.

(** [arr.indexOf(s)]: the first index holding [s], or -1. *)
Fixpoint indexOf (arr : list string) (s : string) : Z :=
  match arr with
  | [] => -1
  | a :: rest =>
      if String.eqb a s then 0
      else let i := indexOf rest s in if Z.eqb i (-1) then -1 else i + 1
  end.

(** [obj[k]] on the members of a JSON object. *)
Fixpoint js_get {A : Type} (obj : list (string * A)) (k : string) : option A :=
  match obj with
  | [] => None
  | (k', v) :: rest => if String.eqb k' k then Some v else js_get rest k
  end.

(** [Object.keys(obj)] *)
Definition js_keys {A : Type} (obj : list (string * A)) : list string :=
  map fst obj.

(** The members every object inherits from [Object.prototype]
    (ECMAScript, clause on the Object prototype object and Annex B). *)
Definition Object_prototype_members : list string :=
  [ "constructor"; "toString"; "toLocaleString"; "valueOf";
    "hasOwnProperty"; "isPrototypeOf"; "propertyIsEnumerable";
    "__proto__"; "__defineGetter__"; "__defineSetter__";
    "__lookupGetter__"; "__lookupSetter__" ].

Definition inherited (k : string) : bool :=
  existsb (String.eqb k) Object_prototype_members.

(** What [instance.items[k]] evaluates to: an item of the map, a member
    inherited from the prototype (a function, or the prototype itself),
    or undefined. *)
Inductive ItemLookup : Type :=
  | OwnItem (x : Item)
  | Inherited
  | Undefined.

(** [instance.items[k]]: own members first, then the prototype. *)
Definition items_get (m : gmap string Item) (k : string) : ItemLookup :=
  match m !! k with
  | Some x => OwnItem x
  | None => if inherited k then Inherited else Undefined
  end.

(** The body of the [for] loop of the "save" case for the key [k]:
    [None] when the iteration completes without returning, otherwise the
    value that ends the script.  A null entry of the patch raises at
    [p.acl]; an inherited member is truthy and has no [acl], so
    [x.acl.$w] raises. *)
Definition save_iteration (items : list (string * option PatchItem))
    (author : string) (instance : option Bucket) (k : string)
  : option Verdict :=
  match js_get items k with
  | None => Some TypeError
  | Some None => Some TypeError
  | Some (Some p) =>
      let acl_guard : option Verdict :=
        match p_acl p with
        | None => None
        | Some _ =>
            match instance with
            | None => Some TypeError
            | Some inst =>
                if negb (String.eqb author (Bucket_Owner inst))
                then Some (Reject "only owner can modify bucket access rules")
                else None
            end
        end in
      match acl_guard with
      | Some v => Some v
      | None =>
          match instance with
          | None => Some TypeError
          | Some inst =>
              match Bucket_Items inst with
              | None => Some TypeError
              | Some m =>
                  match items_get m k with
                  | OwnItem x =>
                      match ACL_Write (Item_ACL x) with
                      | None => Some TypeError
                      | Some w =>
                          if Z.eqb (indexOf w author) (-1)
                          then Some (Reject "author does not have write access")
                          else None
                      end
                  | Inherited => Some TypeError
                  | Undefined =>
                      if negb (String.eqb author (Bucket_Owner inst))
                      then Some (Reject
                                   "only owner can create new bucket items")
                      else None
                  end
              end
          end
      end
  end.

(** The [for] loop over the keys, then the final [return true]. *)
Fixpoint save_loop (items : list (string * option PatchItem))
    (author : string) (instance : option Bucket) (keys : list string)
  : Verdict :=
  match keys with
  | [] => Accept
  | k :: rest =>
      match save_iteration items author instance k with
      | Some v => v
      | None => save_loop items author instance rest
      end
  end.

(** [bucketsConfig.ValidatorFunc] *)
Definition ValidatorFunc (event : Event) (author : string)
    (instance : option Bucket) : Verdict :=
  let type := patch_type (event_patch event) in
  let patch := patch_json_patch (event_patch event) in
  if String.eqb type "create" then
    match patch with
    | None => TypeError
    | Some patch =>
        if strict_ne (jp_owner patch) author
        then Reject "author must match new bucket owner"
        else Accept
    end
  else if String.eqb type "save" then
    match patch with
    | None => TypeError
    | Some patch =>
        match jp_items patch with
        | None => TypeError
        | Some items =>
            save_loop items author instance (js_keys items)
        end
    end
  else if String.eqb type "delete" then
    if strict_ne (patch_owner (event_patch event)) author
    then Reject "author must match new bucket owner"
    else Accept
  else Accept.

(** ** Collaborators

    The thread store, the Powergate client and the collection of FFS
    instances live outside this file.  Each is a record of operations over
    an abstract world state [St]; an operation returns the new state and
    what the Go call returns. *)

(** [thread.PubKey], observed through [String()]. *)
Record PubKey : Type := { PubKey_String : string }.

(** [thread.Token], observed through [Defined()] and [PubKey()]; the
    latter returns a key, which may be nil, and an error. *)
Record Token : Type := {
  Token_Defined : bool;
  Token_PubKey : option PubKey * option GoError
}.

(** [path.Path], observed through [String()]. *)
Record IpfsPath : Type := { IpfsPath_String : string }.

(** BucketOptions defines options for interacting with buckets. *)
Record BucketOptions : Type := {
  BucketOptions_Name : string;
  BucketOptions_Key : option (list Byte.byte);
  BucketOptions_Token : Token
}.

(** The zero [thread.Token]: not defined, no key. *)
Definition zero_Token : Token :=
  {| Token_Defined := false; Token_PubKey := (None, None) |}.

(** [&BucketOptions{}] *)
Definition zero_BucketOptions : BucketOptions :=
  {| BucketOptions_Name := ""; BucketOptions_Key := None;
     BucketOptions_Token := zero_Token |}.

(** BucketOption holds a bucket option. *)
Definition BucketOption : Type := BucketOptions -> BucketOptions.

(** WithNewBucketName specifies a name for a bucket. *)
Definition WithNewBucketName (n : string) : BucketOption :=
  fun args =>
    {| BucketOptions_Name := n; BucketOptions_Key := BucketOptions_Key args;
       BucketOptions_Token := BucketOptions_Token args |}.

(** WithNewBucketKey sets the bucket encryption key. *)
Definition WithNewBucketKey (k : option (list Byte.byte)) : BucketOption :=
  fun args =>
    {| BucketOptions_Name := BucketOptions_Name args; BucketOptions_Key := k;
       BucketOptions_Token := BucketOptions_Token args |}.

(** WithNewBucketToken sets the threaddb token. *)
Definition WithNewBucketToken (t : Token) : BucketOption :=
  fun args =>
    {| BucketOptions_Name := BucketOptions_Name args;
       BucketOptions_Key := BucketOptions_Key args;
       BucketOptions_Token := t |}.

(** The fields of [ffs.DefaultConfig] that this package names. *)
Record IpfsConfig : Type := { IpfsConfig_AddTimeout : Z }.

Record HotConfig : Type := {
  HotConfig_Enabled : bool;
  HotConfig_AllowUnfreeze : bool;
  HotConfig_Ipfs : IpfsConfig
}.

Record FilConfig : Type := {
  FilConfig_RepFactor : Z;
  FilConfig_DealMinDuration : Z;
  FilConfig_Addr : string
}.

Record ColdConfig : Type := {
  ColdConfig_Enabled : bool;
  ColdConfig_Filecoin : FilConfig
}.

Record DefaultConfig : Type := {
  DefaultConfig_Hot : HotConfig;
  DefaultConfig_Cold : ColdConfig;
  DefaultConfig_Repairable : bool
}.

(** ffsDefaultCidConfig is a default hardcoded CidConfig to be used on
    newly created FFS instances, if none is provided in constructor. *)
Definition ffsDefaultCidConfig : DefaultConfig :=
  {| DefaultConfig_Hot :=
       {| HotConfig_Enabled := false; HotConfig_AllowUnfreeze := true;
          HotConfig_Ipfs := {| IpfsConfig_AddTimeout := 60 * 2 |} |};
     DefaultConfig_Cold :=
       {| ColdConfig_Enabled := true;
          ColdConfig_Filecoin :=
            {| FilConfig_RepFactor := 10;
               FilConfig_DealMinDuration := 200000;
               FilConfig_Addr := "" |} |};
     DefaultConfig_Repairable := false |}.

(** [defaultBucketCidConfig.Cold.Filecoin.Addr = waddr] *)
Definition set_Cold_Filecoin_Addr (c : DefaultConfig) (waddr : string)
  : DefaultConfig :=
  {| DefaultConfig_Hot := DefaultConfig_Hot c;
     DefaultConfig_Cold :=
       {| ColdConfig_Enabled := ColdConfig_Enabled (DefaultConfig_Cold c);
          ColdConfig_Filecoin :=
            {| FilConfig_RepFactor :=
                 FilConfig_RepFactor
                   (ColdConfig_Filecoin (DefaultConfig_Cold c));
               FilConfig_DealMinDuration :=
                 FilConfig_DealMinDuration
                   (ColdConfig_Filecoin (DefaultConfig_Cold c));
               FilConfig_Addr := waddr |} |};
     DefaultConfig_Repairable := DefaultConfig_Repairable c |}.

(** The reply of [FFS.Info]: the balance list, which may be nil. *)
Record BalanceInfo : Type := { BalanceInfo_Addr : string }.

Record InstanceInfo : Type := {
  InstanceInfo_Balances : option (list BalanceInfo)
}.

(** Modelled from the spec: the record kept by the FFS instance collection
    (package [mongodb], type declarations not at hand); the spec lists the
    members [authToken] and [archives: {current: {jobID, jobStatus,
    failureMsg, aborted, abortedMsg, cid, deals}, history}]. *)
Record FFSArchive : Type := {
  FFSArchive_Cid : list Byte.byte;
  FFSArchive_JobID : string;
  FFSArchive_JobStatus : Z;
  FFSArchive_Aborted : bool;
  FFSArchive_AbortedMsg : string;
  FFSArchive_FailureMsg : string
}.

Record FFSArchives : Type := {
  FFSArchives_Current : FFSArchive;
  FFSArchives_History : option (list FFSArchive)
}.

Record FFSInstance : Type := {
  FFSInstance_BucketKey : string;
  FFSInstance_FFSToken : string;
  FFSInstance_Archives : FFSArchives
}.

(** The embedded [Collection]: the calls into the thread store. *)
Record Collection (St : Type) : Type := {
  Collection_Create :
    string -> Bucket -> Token -> St -> St * (string * option GoError);
  Collection_Save :
    string -> Bucket -> option Token -> St -> St * option GoError
}.
Arguments Collection_Create {St}.
Arguments Collection_Save {St}.

(** [powc.Client]: the calls of its [FFS] member that are used. *)
Record PowClient (St : Type) : Type := {
  FFS_Create : St -> St * (string * string * option GoError);
  FFS_Info : string -> St -> St * (InstanceInfo * option GoError);
  FFS_SetDefaultConfig :
    string -> DefaultConfig -> St -> St * option GoError
}.
Arguments FFS_Create {St}.
Arguments FFS_Info {St}.
Arguments FFS_SetDefaultConfig {St}.

(** [mdb.FFSInstances] *)
Record FFSInstances (St : Type) : Type := {
  FFSInstances_Create :
    string -> string -> string -> St -> St * option GoError;
  FFSInstances_Get : string -> St -> St * (FFSInstance + GoError)
}.
Arguments FFSInstances_Create {St}.
Arguments FFSInstances_Get {St}.

(** Buckets is a wrapper around a threaddb collection that performs object
    storage on IPFS and Filecoin. *)
Record Buckets (St : Type) : Type := {
  Buckets_Collection : Collection St;
  Buckets_ffsCol : FFSInstances St;
  Buckets_pgClient : option (PowClient St);
  Buckets_buckCidConfig : DefaultConfig
}.
Arguments Buckets_Collection {St}.
Arguments Buckets_ffsCol {St}.
Arguments Buckets_pgClient {St}.
Arguments Buckets_buckCidConfig {St}.

(** ** Stateful computations that may panic *)

Definition M (St A : Type) : Type := St -> St * outcome A.

Definition ret {St A : Type} (a : A) : M St A := fun st => (st, Done a).

Definition bind {St A B : Type} (c : M St A) (k : A -> M St B) : M St B :=
  fun st =>
    match c st with
    | (st', Done a) => k a st'
    | (st', Panic msg) => (st', Panic msg)
    end.

(** A collaborator call, which returns and does not panic. *)
Definition call {St A : Type} (f : St -> St * A) : M St A :=
  fun st => let '(st', a) := f st in (st', Done a).

(** A run-time panic. *)
Definition panic {St A : Type} (msg : string) : M St A :=
  fun st => (st, Panic msg).

Notation "x <- c ;; k" := (bind c (fun x => k))
  (at level 100, c at next level, right associativity).

(** [s[0]] on a slice: out of range when the slice is nil or empty. *)
Definition index0 {St A : Type} (s : option (list A)) : M St A :=
  match s with
  | Some (a :: _) => ret a
  | _ => panic "runtime error: index out of range [0] with length 0"
  end.

(** [fmt.Errorf(prefix + "%s", err)] *)
Definition wrap (prefix : string) (e : GoError) : GoError :=
  Errorf (prefix +:+ Error e).

Section Operations.
Context {St : Type}.
(** The constant [ffs.Failed] of the Powergate library. *)
Variable ffs_Failed : Z.
(** [base64.StdEncoding.EncodeToString] *)
Variable base64_EncodeToString : list Byte.byte -> string.

(** NewBuckets returns a new buckets collection mananger. *)
Definition NewBuckets (tc : Collection St) (pgc : option (PowClient St))
    (col : FFSInstances St) (defaultCidConfig : option DefaultConfig)
  : Buckets St :=
  let buckCidConfig :=
    match defaultCidConfig with
    | Some c => c
    | None => ffsDefaultCidConfig
    end in
  {| Buckets_Collection := tc; Buckets_ffsCol := col;
     Buckets_pgClient := pgc; Buckets_buckCidConfig := buckCidConfig |}.

(** [createFFSInstance]; the mutex is not modelled, calls are
    sequential. *)
Definition createFFSInstance (b : Buckets St) (bucketKey : string)
  : M St (option GoError) :=
  match Buckets_pgClient b with
  | None => ret None
  | Some pg =>
      r <- call (FFS_Create pg) ;;
      let '(_, token, err) := r in
      match err with
      | Some e => ret (Some (wrap "creating FFS instance: " e))
      | None =>
          r <- call (FFS_Info pg token) ;;
          let '(i, err) := r in
          match err with
          | Some e =>
              ret (Some (wrap
                "getting information about created ffs instance: " e))
          | None =>
              b0 <- index0 (InstanceInfo_Balances i) ;;
              let waddr := BalanceInfo_Addr b0 in
              err <- call (FFSInstances_Create (Buckets_ffsCol b)
                             bucketKey token waddr) ;;
              match err with
              | Some e => ret (Some (wrap "saving FFS instances data: " e))
              | None =>
                  let defaultBucketCidConfig :=
                    {| DefaultConfig_Cold :=
                         DefaultConfig_Cold (Buckets_buckCidConfig b);
                       DefaultConfig_Hot :=
                         DefaultConfig_Hot (Buckets_buckCidConfig b);
                       DefaultConfig_Repairable :=
                         DefaultConfig_Repairable (Buckets_buckCidConfig b)
                    |} in
                  let defaultBucketCidConfig :=
                    set_Cold_Filecoin_Addr defaultBucketCidConfig waddr in
                  err <- call (FFS_SetDefaultConfig pg token
                                 defaultBucketCidConfig) ;;
                  match err with
                  | Some e =>
                      ret (Some (wrap
                        "setting default bucket FFS cidconfig: " e))
                  | None => ret None
                  end
              end
          end
      end
  end.

(** The part of [New] from [now := time.Now().UnixNano()] on: builds the
    record, creates it in the thread and provisions the FFS instance. *)
Definition New_create (b : Buckets St) (now : Z) (dbID key : string)
    (pth : IpfsPath) (owner : option PubKey) (args : BucketOptions)
    (encKey : string) : M St (option Bucket * option GoError) :=
  let bucket :=
    {| Bucket_Key := key;
       Bucket_Owner := "";
       Bucket_Name := BucketOptions_Name args;
       Bucket_Version := Version;
       Bucket_EncKey := encKey;
       Bucket_Path := IpfsPath_String pth;
       Bucket_Items := Some ∅;
       Bucket_Archives :=
         {| Archives_Current :=
              {| Archive_Cid := ""; Archive_Deals := Some [] |};
            Archives_History := Some [] |};
       Bucket_CreatedAt := now;
       Bucket_UpdatedAt := now |} in
  let bucket :=
    match owner with
    | Some o =>
        {| Bucket_Key := Bucket_Key bucket;
           Bucket_Owner := PubKey_String o;
           Bucket_Name := Bucket_Name bucket;
           Bucket_Version := Bucket_Version bucket;
           Bucket_EncKey := Bucket_EncKey bucket;
           Bucket_Path := Bucket_Path bucket;
           Bucket_Items := Bucket_Items bucket;
           Bucket_Archives := Bucket_Archives bucket;
           Bucket_CreatedAt := Bucket_CreatedAt bucket;
           Bucket_UpdatedAt := Bucket_UpdatedAt bucket |}
    | None => bucket
    end in
  r <- call (Collection_Create (Buckets_Collection b) dbID bucket
               (BucketOptions_Token args)) ;;
  let '(id, err) := r in
  match err with
  | Some e => ret (None, Some (wrap "creating bucket in thread: " e))
  | None =>
      let bucket :=
        {| Bucket_Key := id;
           Bucket_Owner := Bucket_Owner bucket;
           Bucket_Name := Bucket_Name bucket;
           Bucket_Version := Bucket_Version bucket;
           Bucket_EncKey := Bucket_EncKey bucket;
           Bucket_Path := Bucket_Path bucket;
           Bucket_Items := Bucket_Items bucket;
           Bucket_Archives := Bucket_Archives bucket;
           Bucket_CreatedAt := Bucket_CreatedAt bucket;
           Bucket_UpdatedAt := Bucket_UpdatedAt bucket |} in
      err <- createFFSInstance b key ;;
      match err with
      | Some e =>
          ret (None, Some (wrap "creating FFS instance for bucket: " e))
      | None => ret (Some bucket, None)
      end
  end.

(** Create a bucket instance.  [now] is the reading of the clock. *)
Definition New (b : Buckets St) (now : Z) (dbID key : string)
    (pth : IpfsPath) (owner : option PubKey) (opts : list BucketOption)
  : M St (option Bucket * option GoError) :=
  let args := fold_left (fun args opt => opt args) opts zero_BucketOptions in
  let encKey :=
    match BucketOptions_Key args with
    | Some k => base64_EncodeToString k
    | None => ""
    end in
  let continue := New_create b now dbID key pth owner args encKey in
  if Token_Defined (BucketOptions_Token args) then
    let '(tokenOwner, err) := Token_PubKey (BucketOptions_Token args) in
    match err with
    | Some e => ret (None, Some e)
    | None =>
        match tokenOwner with
        | None => continue
        | Some t =>
            match owner with
            | None =>
                panic ("runtime error: "
                       +:+ "invalid memory address or nil pointer dereference")
            | Some o =>
                if negb (String.eqb (PubKey_String o) (PubKey_String t))
                then ret (None,
                          Some (Errorf "creating bucket: token owner mismatch"))
                else continue
            end
        end
    end
  else continue.

(** IsArchivingEnabled returns whether or not Powergate archiving is
    enabled. *)
Definition IsArchivingEnabled (b : Buckets St) : bool :=
  match Buckets_pgClient b with
  | Some _ => true
  | None => false
  end.

(** SaveSafe a bucket instance: the record is normalised in place, then
    handed to [Save]. *)
Definition SaveSafe (b : Buckets St) (dbID : string) (bucket : Bucket)
    (opts : option Token) : M St (Bucket * option GoError) :=
  let bucket := ensureNoNulls bucket in
  err <- call (Collection_Save (Buckets_Collection b) dbID bucket opts) ;;
  ret (bucket, err).

(** ArchiveStatus returns the last known archive status on Powergate.
    If the return status is Failed, an extra string with the error
    message is provided. *)
Definition ArchiveStatus (b : Buckets St) (key : string)
  : M St (Z * string * option GoError) :=
  r <- call (FFSInstances_Get (Buckets_ffsCol b) key) ;;
  match r with
  | inr e => ret (ffs_Failed, "", Some (wrap "getting ffs instance data: " e))
  | inl ffsi =>
      if String.eqb
           (FFSArchive_JobID (FFSArchives_Current (FFSInstance_Archives ffsi)))
           ""
      then ret (ffs_Failed, "", Some ErrNoCurrentArchive)
      else
        let current := FFSArchives_Current (FFSInstance_Archives ffsi) in
        if FFSArchive_Aborted current
        then ret (ffs_Failed, "",
                  Some (Errorf ("job status tracking was aborted: "
                                +:+ FFSArchive_AbortedMsg current)))
        else ret (FFSArchive_JobStatus current,
                  FFSArchive_FailureMsg current, None)
  end.
End Operations.


(** ** Auxiliary definitions for the statements *)

(** The item written by the else branch of [UpsertItemAtPath]. *)
Definition fresh_Item (owner : string) (cid : Cid) (updated : Time) : Item :=
  let acl := if negb (String.eqb owner "") then Some [owner] else None in
  {| Item_Cid := Cid_String cid;
     Item_ACL := {| ACL_Write := acl; ACL_Read := acl; ACL_Delete := acl |};
     Item_CreatedAt := UnixNano updated;
     Item_UpdatedAt := UnixNano updated |}.

(** The bucket and the arguments used to exercise a repeated upsert: the
    owner O shares the item at "a.txt" with a second writer N. *)
Definition shared_acl : ACL :=
  {| ACL_Write := Some ["O"; "N"]; ACL_Read := Some ["O"; "N"];
     ACL_Delete := Some ["O"] |}.

Definition shared_bucket : Bucket :=
  {| Bucket_Key := "k"; Bucket_Owner := "O"; Bucket_Name := "b";
     Bucket_Version := Version; Bucket_EncKey := ""; Bucket_Path := "/ipfs/r";
     Bucket_Items :=
       Some {[ "a.txt" := {| Item_Cid := "c1"; Item_ACL := shared_acl;
                             Item_CreatedAt := 1; Item_UpdatedAt := 1 |} ]};
     Bucket_Archives :=
       {| Archives_Current := {| Archive_Cid := ""; Archive_Deals := Some [] |};
          Archives_History := Some [] |};
     Bucket_CreatedAt := 1; Bucket_UpdatedAt := 1 |}.

(** The item at [pth] after a successful call, if any. *)
Definition item_after (r : outcome (Bucket * option GoError)) (pth : string)
  : option Item :=
  match r with
  | Done (b, _) => Some (fst (map_index (Bucket_Items b) pth))
  | Panic _ => None
  end.

(** [UpsertItemAtPath] applied to the result of a previous call. *)
Definition upsert_again (r : outcome (Bucket * option GoError))
    (pth : string) (cid : Cid) (updated : Time)
  : outcome (Bucket * option GoError) :=
  match r with
  | Done (b, _) => UpsertItemAtPath b pth cid updated
  | Panic msg => Panic msg
  end.

(** "Non-nil Deals everywhere": [Archives.Current] and every entry of
    [Archives.History] carry a non-nil Deals sequence. *)
Definition no_null_deals (b : Bucket) : Prop :=
  is_Some (Archive_Deals (Archives_Current (Bucket_Archives b))) /\
  forall h : list Archive,
    Archives_History (Bucket_Archives b) = Some h ->
    Forall (fun a => is_Some (Archive_Deals a)) h.

(** A bucket with one archive in its history, decoded from a document in
    which both Deals members are null. *)
Definition archived_bucket : Bucket :=
  {| Bucket_Key := "k"; Bucket_Owner := "O"; Bucket_Name := "b";
     Bucket_Version := Version; Bucket_EncKey := ""; Bucket_Path := "/ipfs/r";
     Bucket_Items := None;
     Bucket_Archives :=
       {| Archives_Current := {| Archive_Cid := "a2"; Archive_Deals := None |};
          Archives_History :=
            Some [ {| Archive_Cid := "a1"; Archive_Deals := None |} ] |};
     Bucket_CreatedAt := 1; Bucket_UpdatedAt := 2 |}.

(** A bucket decoded from a document without item map, with an archive
    in progress and one archive in its history, each with its deals. *)
Definition decoded_bucket : Bucket :=
  {| Bucket_Key := "k"; Bucket_Owner := "O"; Bucket_Name := "b";
     Bucket_Version := Version; Bucket_EncKey := ""; Bucket_Path := "/ipfs/r";
     Bucket_Items := None;
     Bucket_Archives :=
       {| Archives_Current :=
            {| Archive_Cid := "a2";
               Archive_Deals :=
                 Some [ {| Deal_ProposalCid := "p2"; Deal_Miner := "m1" |} ] |};
          Archives_History :=
            Some [ {| Archive_Cid := "a1";
                      Archive_Deals :=
                        Some [ {| Deal_ProposalCid := "p1";
                                  Deal_Miner := "m1" |} ] |} ] |};
     Bucket_CreatedAt := 1; Bucket_UpdatedAt := 2 |}.

(** A small world for exercising the operations: the state is the log of
    the calls made to the collaborators, every call succeeds, [FFS.Info]
    answers with the given balance list and the FFS instance collection
    with the given record. *)
Definition demo_Collection : Collection (list string) :=
  {| Collection_Create :=
       fun _ _ _ st => (app st ["threads.create"], ("id-1", None));
     Collection_Save := fun _ _ _ st => (app st ["threads.save"], None) |}.

Definition demo_PowClient (balances : option (list BalanceInfo))
  : PowClient (list string) :=
  {| FFS_Create := fun st => (app st ["ffs.create"], ("ffs-1", "tok-1", None));
     FFS_Info :=
       fun _ st =>
         (app st ["ffs.info"], ({| InstanceInfo_Balances := balances |}, None));
     FFS_SetDefaultConfig :=
       fun _ _ st => (app st ["ffs.setDefaultConfig"], None) |}.

Definition demo_FFSInstances (record : FFSInstance + GoError)
  : FFSInstances (list string) :=
  {| FFSInstances_Create :=
       fun _ _ _ st => (app st ["ffsinstances.create"], None);
     FFSInstances_Get := fun _ st => (app st ["ffsinstances.get"], record) |}.

Definition demo_Buckets (pg : option (PowClient (list string)))
    (record : FFSInstance + GoError) : Buckets (list string) :=
  {| Buckets_Collection := demo_Collection;
     Buckets_ffsCol := demo_FFSInstances record;
     Buckets_pgClient := pg;
     Buckets_buckCidConfig := ffsDefaultCidConfig |}.

(** The record of a bucket that was never archived, the record of a
    running archive job, and a record flagged aborted that carries no job
    id. *)
Definition ffs_record (jobID : string) (status : Z) (aborted : bool)
    (abortedMsg failureMsg : string) : FFSInstance :=
  {| FFSInstance_BucketKey := "k"; FFSInstance_FFSToken := "tok-1";
     FFSInstance_Archives :=
       {| FFSArchives_Current :=
            {| FFSArchive_Cid := []; FFSArchive_JobID := jobID;
               FFSArchive_JobStatus := status;
               FFSArchive_Aborted := aborted;
               FFSArchive_AbortedMsg := abortedMsg;
               FFSArchive_FailureMsg := failureMsg |};
          FFSArchives_History := None |} |}.

Definition running_record : FFSInstance := ffs_record "job-1" 2 false "" "".

Definition aborted_unsubmitted_record : FFSInstance :=
  ffs_record "" 0 true "stopped by operator" "".

(** The value [New] returns on a token whose key is not the owner. *)
Definition token_owner_mismatch : option Bucket * option GoError :=
  (None, Some (Errorf "creating bucket: token owner mismatch")).

(** "The subject of the token matches the owner": the token yields a key,
    an owner is given, and both print the same. *)
Definition token_subject_matches (token : Token) (owner : option PubKey)
  : Prop :=
  exists (t o : PubKey),
    fst (Token_PubKey token) = Some t /\ owner = Some o /\
    PubKey_String o = PubKey_String t.

(** The token rule as an equivalence over every call with a token: the
    call ends with the mismatch error exactly when the subject of the
    token does not match the owner. *)
Definition token_rule_as_stated {St : Type} (b : Buckets St) (now : Z)
    (dbID key : string) (pth : IpfsPath) (owner : option PubKey)
    (token : Token) (st : St) : Prop :=
  Token_Defined token = true ->
  ((exists st' : St,
      New (fun _ => "") b now dbID key pth owner [WithNewBucketToken token] st
      = (st', Done token_owner_mismatch)) <->
   ~ token_subject_matches token owner).

(** A token that cannot be parsed, and a token issued to "O". *)
Definition malformed_token : Token :=
  {| Token_Defined := true;
     Token_PubKey := (None, Some (Errorf "unable to parse token")) |}.

Definition token_of_O : Token :=
  {| Token_Defined := true;
     Token_PubKey := (Some {| PubKey_String := "O" |}, None) |}.

(** The rule for an existing path as two alternatives: the iteration for
    [k] passes exactly when the author is in the Write set of the stored
    item, or is the owner while the patch carries an ACL for [k]. *)
Definition save_rule_disjunctive (items : list (string * option PatchItem))
    (author : string) (inst : Bucket) (k : string) : Prop :=
  forall (p : PatchItem) (m : gmap string Item) (x : Item)
         (w : list string),
    js_get items k = Some (Some p) ->
    Bucket_Items inst = Some m ->
    m !! k = Some x ->
    ACL_Write (Item_ACL x) = Some w ->
    (save_iteration items author (Some inst) k = None <->
     In author w \/ (is_Some (p_acl p) /\ author = Bucket_Owner inst)).

(** The same rule read by cases: ownership decides when the patch carries
    an ACL for [k], membership in the Write set decides otherwise. *)
Definition save_rule_by_cases (items : list (string * option PatchItem))
    (author : string) (inst : Bucket) (k : string) : Prop :=
  forall (p : PatchItem) (m : gmap string Item) (x : Item)
         (w : list string),
    js_get items k = Some (Some p) ->
    Bucket_Items inst = Some m ->
    m !! k = Some x ->
    ACL_Write (Item_ACL x) = Some w ->
    (save_iteration items author (Some inst) k = None <->
     (is_Some (p_acl p) -> author = Bucket_Owner inst) /\
     (~ is_Some (p_acl p) -> In author w)).

(** A bucket whose owner O has handed the item "a.txt" over to N: the
    Write set names N alone. *)
Definition delegated_item : Item :=
  {| Item_Cid := "c1";
     Item_ACL := {| ACL_Write := Some ["N"]; ACL_Read := Some ["O"; "N"];
                    ACL_Delete := Some ["O"] |};
     Item_CreatedAt := 1; Item_UpdatedAt := 3 |}.

Definition delegated_bucket : Bucket :=
  {| Bucket_Key := "k"; Bucket_Owner := "O"; Bucket_Name := "b";
     Bucket_Version := Version; Bucket_EncKey := ""; Bucket_Path := "/ipfs/r";
     Bucket_Items := Some {[ "a.txt" := delegated_item ]};
     Bucket_Archives :=
       {| Archives_Current := {| Archive_Cid := ""; Archive_Deals := Some [] |};
          Archives_History := Some [] |};
     Bucket_CreatedAt := 1; Bucket_UpdatedAt := 3 |}.

(** A save patch that rewrites the ACL of "a.txt". *)
Definition acl_patch_items : list (string * option PatchItem) :=
  [ ("a.txt",
     Some {| p_cid := None;
             p_acl := Some {| ACL_Write := Some ["N"]; ACL_Read := Some ["N"];
                              ACL_Delete := Some ["N"] |};
             p_created_at := None; p_updated_at := Some 7 |}) ].

Definition acl_save_event : Event :=
  {| event_patch :=
       {| patch_type := "save";
          patch_json_patch :=
            Some {| jp_owner := None; jp_items := Some acl_patch_items |};
          patch_owner := None |} |}.

(** A save patch that replaces the content of "a.txt". *)
Definition cid_patch_items : list (string * option PatchItem) :=
  [ ("a.txt",
     Some {| p_cid := Some "c2"; p_acl := None;
             p_created_at := None; p_updated_at := Some 7 |}) ].

(** The event of a delete: the envelope carries the type and no patch. *)
Definition delete_event : Event :=
  {| event_patch :=
       {| patch_type := "delete"; patch_json_patch := None;
          patch_owner := None |} |}.

(** The event of the creation of a bucket owned by "O". *)
Definition create_event : Event :=
  {| event_patch :=
       {| patch_type := "create";
          patch_json_patch :=
            Some {| jp_owner := Some "O"; jp_items := Some [] |};
          patch_owner := None |} |}.

(** ** Further operations of the package *)

(** [base64.StdEncoding.DecodeString]: the decoded bytes, which are a
    non-nil slice also on failure, and the error. *)
Definition Base64Decoder : Type :=
  string -> option (list Byte.byte) * option GoError.

(** GetEncKey returns the encryption key as bytes if present.  The error
    of the decoder is dropped. *)
Definition GetEncKey (base64_DecodeString : Base64Decoder) (b : Bucket)
  : option (list Byte.byte) :=
  if String.eqb (Bucket_EncKey b) "" then None
  else
    let '(key, _) := base64_DecodeString (Bucket_EncKey b) in
    key.

(** [powc.LogEvent], observed through [LogEntry.Msg] and [Err]. *)
Record LogEvent : Type := {
  LogEvent_Msg : string;
  LogEvent_Err : option GoError
}.

(** The loop [for le := range ffsCh] of [ArchiveWatch], run on the events
    that arrive until the channel is closed: the messages sent on the
    output channel, in order, and the returned error. *)
Fixpoint forward_logs (events : list LogEvent) : list string * option GoError :=
  match events with
  | [] => ([], None)
  | le :: rest =>
      match LogEvent_Err le with
      | Some e => ([], Some e)
      | None =>
          let '(sent, err) := forward_logs rest in
          (LogEvent_Msg le :: sent, err)
      end
  end.

Section Watch.
Context {St : Type}.
(** [cid.Cast] *)
Variable cid_Cast : list Byte.byte -> Cid + GoError.
(** [FFS.WatchLogs] of the Powergate client, called with the token of the
    instance, the archive cid and the job id of the filter, with history.
    It answers with an error, or starts the stream; the second component
    lists the events the stream delivers until it closes the channel. *)
Variable FFS_WatchLogs :
  PowClient St -> string -> Cid -> string -> St ->
  St * (list LogEvent * option GoError).

(** ArchiveWatch allows to have the last log execution for the last
    archive, plus realtime human-friendly log output of how the current
    archive is executing.  The result lists the messages sent on [ch] and
    gives the returned error.  A stream that never closes its channel is
    outside this model. *)
Definition ArchiveWatch (b : Buckets St) (key : string)
  : M St (list string * option GoError) :=
  r <- call (FFSInstances_Get (Buckets_ffsCol b) key) ;;
  match r with
  | inr e => ret ([], Some (wrap "getting ffs instance data: " e))
  | inl ffsi =>
      if String.eqb
           (FFSArchive_JobID (FFSArchives_Current (FFSInstance_Archives ffsi)))
           ""
      then ret ([], Some ErrNoCurrentArchive)
      else
        let current := FFSArchives_Current (FFSInstance_Archives ffsi) in
        if FFSArchive_Aborted current
        then ret ([], Some (Errorf ("job status tracking was aborted: "
                                    +:+ FFSArchive_AbortedMsg current)))
        else
          match cid_Cast (FFSArchive_Cid current) with
          | inr e => ret ([], Some (wrap "parsing current archive cid: " e))
          | inl c =>
              match Buckets_pgClient b with
              | None =>
                  panic ("runtime error: "
                         +:+ "invalid memory address or nil pointer dereference")
              | Some pg =>
                  r <- call (FFS_WatchLogs pg (FFSInstance_FFSToken ffsi) c
                               (FFSArchive_JobID current)) ;;
                  let '(events, err) := r in
                  match err with
                  | Some e =>
                      ret ([], Some (wrap
                        "watching log events in Powergate: " e))
                  | None => ret (forward_logs events)
                  end
              end
          end
  end.
End Watch.

(** ** The store id of package core *)

(** Errors of the datastore: the sentinel [datastore.ErrNotFound], other
    failures, and errors that wrap a cause. *)
Inductive DsError : Type :=
  | ErrNotFound
  | DsFailure (msg : string)
  | DsWrapped (msg : string) (cause : DsError).

(** [errors.Is(err, datastore.ErrNotFound)] *)
Fixpoint errors_Is_ErrNotFound (err : DsError) : bool :=
  match err with
  | ErrNotFound => true
  | DsFailure _ => false
  | DsWrapped _ cause => errors_Is_ErrNotFound cause
  end.

(** [datastore.Datastore], observed through [Get]. *)
Record Datastore : Type := {
  Datastore_Get : string -> list Byte.byte + DsError
}.

Section StoreID.
(** [uuid.UUID] and [uuid.ParseBytes]; the latter returns a value, the zero
    UUID on failure, and an error. *)
Variable UUID : Type.
Variable uuid_ParseBytes : list Byte.byte -> UUID * option GoError.

(** [storeIDAtKey]: the second result of [uuid.ParseBytes] is assigned to
    [err] and not read. *)
Definition storeIDAtKey (ds : Datastore) (key : string)
  : option UUID * option DsError :=
  match Datastore_Get ds key with
  | inr err =>
      if errors_Is_ErrNotFound err then (None, None) else (None, Some err)
  | inl idv =>
      let '(id, _) := uuid_ParseBytes idv in
      (Some id, None)
  end.
End StoreID.

(** ** Auxiliary definitions for the further statements *)

(** The record [New] builds before the store assigns its key. *)
Definition new_Bucket (key : string) (owner : option PubKey)
    (name encKey : string) (pth : IpfsPath) (now : Z) : Bucket :=
  {| Bucket_Key := key;
     Bucket_Owner :=
       match owner with
       | Some o => PubKey_String o
       | None => ""
       end;
     Bucket_Name := name;
     Bucket_Version := Version;
     Bucket_EncKey := encKey;
     Bucket_Path := IpfsPath_String pth;
     Bucket_Items := Some ∅;
     Bucket_Archives :=
       {| Archives_Current := {| Archive_Cid := ""; Archive_Deals := Some [] |};
          Archives_History := Some [] |};
     Bucket_CreatedAt := now;
     Bucket_UpdatedAt := now |}.

(** The options collected by [New]. *)
Definition collect_options (opts : list BucketOption) : BucketOptions :=
  fold_left (fun args opt => opt args) opts zero_BucketOptions.

(** The encoded key [New] stores. *)
Definition encoded_key (base64_EncodeToString : list Byte.byte -> string)
    (args : BucketOptions) : string :=
  match BucketOptions_Key args with
  | Some k => base64_EncodeToString k
  | None => ""
  end.

(** "Never updated before it was created", for one item and for a map. *)
Definition item_times_ordered (x : Item) : Prop :=
  Item_CreatedAt x <= Item_UpdatedAt x.

(** The configuration [createFFSInstance] pushes for the address [waddr]. *)
Definition pushed_config {St : Type} (b : Buckets St) (waddr : string)
  : DefaultConfig :=
  set_Cold_Filecoin_Addr
    {| DefaultConfig_Hot := DefaultConfig_Hot (Buckets_buckCidConfig b);
       DefaultConfig_Cold := DefaultConfig_Cold (Buckets_buckCidConfig b);
       DefaultConfig_Repairable :=
         DefaultConfig_Repairable (Buckets_buckCidConfig b) |}
    waddr.

(** A log stream of two lines followed by the end-of-stream error and a
    line that is never read. *)
Definition demo_events : list LogEvent :=
  [ {| LogEvent_Msg := "queued"; LogEvent_Err := None |};
    {| LogEvent_Msg := "executing"; LogEvent_Err := None |};
    {| LogEvent_Msg := ""; LogEvent_Err := Some (Errorf "EOF") |};
    {| LogEvent_Msg := "late"; LogEvent_Err := None |} ].

Definition demo_cid_Cast (raw : list Byte.byte) : Cid + GoError :=
  match raw with
  | [] => inl {| Cid_String := "bafy" |}
  | _ => inr (Errorf "invalid cid")
  end.

Definition demo_WatchLogs (events : list LogEvent)
    (pg : PowClient (list string)) (token : string) (c : Cid)
    (jobID : string) (st : list string)
  : list string * (list LogEvent * option GoError) :=
  (app st ["ffs.watchLogs"], (events, None)).

(** The event of a save whose patch carries the given owner member and
    the given items. *)
Definition save_event (owner : option string)
    (items : list (string * option PatchItem)) : Event :=
  {| event_patch :=
       {| patch_type := "save";
          patch_json_patch :=
            Some {| jp_owner := owner; jp_items := Some items |};
          patch_owner := None |} |}.

(** A bucket that was created without owner. *)
Definition ownerless_bucket : Bucket :=
  new_Bucket "k" None "b" "" {| IpfsPath_String := "/ipfs/r" |} 1.

(** The bucket of owner O right after its creation: no items yet. *)
Definition owned_bucket : Bucket :=
  new_Bucket "k" (Some {| PubKey_String := "O" |}) "b" ""
    {| IpfsPath_String := "/ipfs/r" |} 1.

(** A Powergate client whose [FFS.Info] fails; the reply carries no
    balance list. *)
Definition info_failing_PowClient : PowClient (list string) :=
  {| FFS_Create := fun st => (app st ["ffs.create"], ("ffs-1", "tok-1", None));
     FFS_Info :=
       fun _ st =>
         (app st ["ffs.info"],
          ({| InstanceInfo_Balances := None |}, Some (Errorf "timeout")));
     FFS_SetDefaultConfig :=
       fun _ _ st => (app st ["ffs.setDefaultConfig"], None) |}.

(** A codec for the witnesses: the bytes of the key as a string. *)
Definition demo_encode (k : list Byte.byte) : string :=
  string_of_list_byte k.

Definition demo_decode : Base64Decoder :=
  fun s => (Some (list_byte_of_string s), None).
(** * Properties *)

(** ** Helper facts *)

Lemma set_Items_same (b : Bucket) : set_Items b (Bucket_Items b) = b.
Proof. by destruct b. Qed.

Lemma set_Items_twice (b : Bucket) (v w : option (gmap string Item)) :
  set_Items (set_Items b v) w = set_Items b w.
Proof. reflexivity. Qed.

Lemma map_index_Some (m : gmap string Item) (k : string) (x : Item) :
  m !! k = Some x -> map_index (Some m) k = (x, true).
Proof. intros H. unfold map_index. by rewrite H. Qed.

Lemma map_index_None (m : gmap string Item) (k : string) :
  m !! k = None -> map_index (Some m) k = (zero_Item, false).
Proof. intros H. unfold map_index. by rewrite H. Qed.

Lemma eqb_false_of_ne (s t : string) : s <> t -> String.eqb s t = false.
Proof. intros H. by apply String.eqb_neq. Qed.


(** The three outcomes of [UpsertItemAtPath], by the state of the map. *)
Lemma UpsertItemAtPath_nil (b : Bucket) pth cid updated :
  Bucket_Items b = None ->
  UpsertItemAtPath b pth cid updated = Panic "assignment to entry in nil map".
Proof. intros H. unfold UpsertItemAtPath. by rewrite H. Qed.

Lemma UpsertItemAtPath_changed (b : Bucket) m pth x cid updated :
  Bucket_Items b = Some m ->
  m !! pth = Some x ->
  Item_Cid x <> Cid_String cid ->
  UpsertItemAtPath b pth cid updated =
    Done (set_Items b (Some (<[pth :=
            {| Item_Cid := Cid_String cid; Item_ACL := Item_ACL x;
               Item_CreatedAt := Item_CreatedAt x;
               Item_UpdatedAt := UnixNano updated |}]> m)), None).
Proof.
  intros Hm Hx Hne. unfold UpsertItemAtPath.
  rewrite Hm, (map_index_Some _ _ _ Hx), (eqb_false_of_ne _ _ Hne).
  reflexivity.
Qed.

Lemma UpsertItemAtPath_same (b : Bucket) m pth x cid updated :
  Bucket_Items b = Some m ->
  m !! pth = Some x ->
  Item_Cid x = Cid_String cid ->
  UpsertItemAtPath b pth cid updated =
    Done (set_Items b
            (Some (<[pth := fresh_Item (Bucket_Owner b) cid updated]> m)),
          None).
Proof.
  intros Hm Hx He. unfold UpsertItemAtPath.
  rewrite Hm, (map_index_Some _ _ _ Hx), He, String.eqb_refl.
  reflexivity.
Qed.

Lemma UpsertItemAtPath_absent (b : Bucket) m pth cid updated :
  Bucket_Items b = Some m ->
  m !! pth = None ->
  UpsertItemAtPath b pth cid updated =
    Done (set_Items b
            (Some (<[pth := fresh_Item (Bucket_Owner b) cid updated]> m)),
          None).
Proof.
  intros Hm Hx. unfold UpsertItemAtPath.
  rewrite Hm, (map_index_None _ _ Hx). reflexivity.
Qed.

(** ** UpsertItemAtPath *)

(** C6.  When the bucket holds an item at [pth] whose Cid differs from the
    given content address, [UpsertItemAtPath] returns without error and
    the item at [pth] has the new Cid and the new UpdatedAt, with its
    CreatedAt and ACL as before; every other path and every other field of
    the bucket is unchanged. *)
Theorem UpsertItemAtPath_different_cid
    (b : Bucket) (m : gmap string Item) (pth : string) (x : Item)
    (cid : Cid) (updated : Time) :
  Bucket_Items b = Some m ->
  m !! pth = Some x ->
  Item_Cid x <> Cid_String cid ->
  exists (b' : Bucket) (m' : gmap string Item) (x' : Item),
    UpsertItemAtPath b pth cid updated = Done (b', None) /\
    Bucket_Items b' = Some m' /\
    m' !! pth = Some x' /\
    Item_Cid x' = Cid_String cid /\
    Item_UpdatedAt x' = UnixNano updated /\
    Item_CreatedAt x' = Item_CreatedAt x /\
    Item_ACL x' = Item_ACL x /\
    (forall q : string, q <> pth -> m' !! q = m !! q) /\
    set_Items b' (Bucket_Items b) = b.
Proof.
  intros Hm Hx Hne.
  eexists _, _, _. split.
  { by apply (UpsertItemAtPath_changed b m pth x). }
  split; [reflexivity |]. split; [apply lookup_insert_eq |].
  repeat (split; [reflexivity |]). split.
  - intros q Hq. by rewrite lookup_insert_ne.
  - rewrite set_Items_twice. apply set_Items_same.
Qed.


(** C2.  On the bucket [shared_bucket], whose item at "a.txt" has Cid "c1",
    was created at 1 and is writable by O and N, a first call with the
    content address "c2" at time 5 keeps CreatedAt 1 and the shared ACL; a
    second call with the same path and the same content address, at time
    9, leaves an item created and updated at 9 whose ACL names the owner
    alone.  The second call is not a no-op on CreatedAt, UpdatedAt or the
    ACL. *)
Theorem UpsertItemAtPath_same_cid_resets :
  let first :=
    UpsertItemAtPath shared_bucket "a.txt" {| Cid_String := "c2" |}
      {| UnixNano := 5 |} in
  let second :=
    upsert_again first "a.txt" {| Cid_String := "c2" |} {| UnixNano := 9 |} in
  item_after first "a.txt" =
    Some {| Item_Cid := "c2"; Item_ACL := shared_acl;
            Item_CreatedAt := 1; Item_UpdatedAt := 5 |} /\
  item_after second "a.txt" =
    Some {| Item_Cid := "c2";
            Item_ACL := {| ACL_Write := Some ["O"]; ACL_Read := Some ["O"];
                           ACL_Delete := Some ["O"] |};
            Item_CreatedAt := 9; Item_UpdatedAt := 9 |}.
Proof. split; vm_compute; reflexivity. Qed.

(** The same in general: whenever the item at [pth] already carries the
    given content address, the call replaces it by a fresh item. *)
Lemma UpsertItemAtPath_same_cid_general
    (b : Bucket) (m : gmap string Item) (pth : string) (x : Item)
    (cid : Cid) (updated : Time) :
  Bucket_Items b = Some m ->
  m !! pth = Some x ->
  Item_Cid x = Cid_String cid ->
  item_after (UpsertItemAtPath b pth cid updated) pth =
    Some (fresh_Item (Bucket_Owner b) cid updated).
Proof.
  intros Hm Hx He.
  rewrite (UpsertItemAtPath_same b m pth x cid updated Hm Hx He).
  simpl. by rewrite lookup_insert_eq.
Qed.

(** Also from an empty slot: the first call creates the item, the second
    call with the same content address creates it again, stamped with the
    time of the second call. *)
Lemma UpsertItemAtPath_twice_from_absent
    (b : Bucket) (m : gmap string Item) (pth : string) (cid : Cid)
    (t1 t2 : Time) :
  Bucket_Items b = Some m ->
  m !! pth = None ->
  item_after (upsert_again (UpsertItemAtPath b pth cid t1) pth cid t2) pth =
    Some (fresh_Item (Bucket_Owner b) cid t2).
Proof.
  intros Hm Hx.
  rewrite (UpsertItemAtPath_absent b m pth cid t1 Hm Hx). simpl.
  rewrite (UpsertItemAtPath_same _
             (<[pth := fresh_Item (Bucket_Owner b) cid t1]> m)
             pth (fresh_Item (Bucket_Owner b) cid t1) cid t2);
    [| reflexivity | apply lookup_insert_eq | reflexivity].
  simpl. by rewrite lookup_insert_eq.
Qed.

Lemma UpsertItemAtPath_different_cid_witness :
  exists (b' : Bucket) (m' : gmap string Item) (x' : Item),
    UpsertItemAtPath shared_bucket "a.txt" {| Cid_String := "c2" |}
      {| UnixNano := 5 |} = Done (b', None) /\
    Bucket_Items b' = Some m' /\
    m' !! "a.txt" = Some x' /\
    Item_Cid x' = "c2" /\
    Item_UpdatedAt x' = 5 /\
    Item_CreatedAt x' = 1 /\
    Item_ACL x' = shared_acl /\
    (forall q : string, q <> "a.txt" ->
       m' !! q =
       ({[ "a.txt" := {| Item_Cid := "c1"; Item_ACL := shared_acl;
                         Item_CreatedAt := 1; Item_UpdatedAt := 1 |} ]}
          : gmap string Item) !! q) /\
    set_Items b' (Bucket_Items shared_bucket) = shared_bucket.
Proof.
  apply (UpsertItemAtPath_different_cid shared_bucket
           {[ "a.txt" := {| Item_Cid := "c1"; Item_ACL := shared_acl;
                            Item_CreatedAt := 1; Item_UpdatedAt := 1 |} ]}
           "a.txt"
           {| Item_Cid := "c1"; Item_ACL := shared_acl;
              Item_CreatedAt := 1; Item_UpdatedAt := 1 |}
           {| Cid_String := "c2" |} {| UnixNano := 5 |}).
  - reflexivity.
  - vm_compute. reflexivity.
  - simpl. discriminate.
Defined.

(** ** Normalisation *)

(** [ensureNoNulls] in closed form: the item map and the history become
    non-nil, nothing else moves. *)
Lemma ensureNoNulls_closed_form (b : Bucket) :
  ensureNoNulls b =
    set_Archives
      (set_Items b (Some (default ∅ (Bucket_Items b))))
      {| Archives_Current := Archives_Current (Bucket_Archives b);
         Archives_History :=
           Some (default [] (Archives_History (Bucket_Archives b))) |}.
Proof.
  destruct b as [k o n v e p items [[c deals] hist] ca ua].
  destruct items as [m|], hist as [[|a h]|], deals as [[|d ds]|];
    reflexivity.
Qed.

(** C4.  [ensureNoNulls] is a total function.  A nil item map becomes the
    empty map and a nil history the empty sequence, non-nil containers are
    kept, [Archives.Current] and every other field are unchanged, and a
    second normalisation changes nothing. *)
Theorem ensureNoNulls_idempotent_total (b : Bucket) :
  let b' := ensureNoNulls b in
  Bucket_Items b' = Some (default ∅ (Bucket_Items b)) /\
  Archives_History (Bucket_Archives b') =
    Some (default [] (Archives_History (Bucket_Archives b))) /\
  (Bucket_Items b = None -> Bucket_Items b' = Some ∅) /\
  (Archives_History (Bucket_Archives b) = None ->
   Archives_History (Bucket_Archives b') = Some []) /\
  Archives_Current (Bucket_Archives b') =
    Archives_Current (Bucket_Archives b) /\
  Bucket_Key b' = Bucket_Key b /\
  Bucket_Owner b' = Bucket_Owner b /\
  Bucket_Name b' = Bucket_Name b /\
  Bucket_Version b' = Bucket_Version b /\
  Bucket_EncKey b' = Bucket_EncKey b /\
  Bucket_Path b' = Bucket_Path b /\
  Bucket_CreatedAt b' = Bucket_CreatedAt b /\
  Bucket_UpdatedAt b' = Bucket_UpdatedAt b /\
  ensureNoNulls b' = b'.
Proof.
  intros b'. subst b'.
  rewrite (ensureNoNulls_closed_form (ensureNoNulls b)).
  rewrite !ensureNoNulls_closed_form. simpl.
  repeat split; try reflexivity.
  - by intros ->.
  - by intros ->.
Qed.

(** The inner assignment of [ensureNoNulls] to [b.Archives.Current] is
    overwritten by the copy taken before it: a current archive with nil
    Deals keeps them, also when the history is empty. *)
Lemma ensureNoNulls_current_kept (b : Bucket) :
  Archives_Current (Bucket_Archives (ensureNoNulls b)) =
    Archives_Current (Bucket_Archives b).
Proof. by rewrite ensureNoNulls_closed_form. Qed.

(** [SaveSafe] hands the normalised record to [Save] and reports what
    [Save] reports; it does not panic. *)
Lemma SaveSafe_submits {St : Type} (b : Buckets St) (dbID : string)
    (bucket : Bucket) (opts : option Token) (st : St) :
  SaveSafe b dbID bucket opts st =
    (fst (Collection_Save (Buckets_Collection b) dbID
            (ensureNoNulls bucket) opts st),
     Done (ensureNoNulls bucket,
           snd (Collection_Save (Buckets_Collection b) dbID
                  (ensureNoNulls bucket) opts st))).
Proof.
  unfold SaveSafe, bind, call, ret.
  by destruct (Collection_Save _ _ _ _ _).
Qed.

(** C3, as amended.  For every record, the record that [SaveSafe] submits
    is the normalised one; its item map is non-nil and its history is a
    non-nil sequence holding exactly the entries the record had, so the
    Deals of no history entry is rewritten; and when [Archives.Current]
    and every history entry had non-nil Deals before the call, they still
    have in the submitted record. *)
Theorem SaveSafe_keeps_deals_non_nil {St : Type} (b : Buckets St)
    (dbID : string) (bucket : Bucket) (opts : option Token) (st : St) :
  exists (st' : St) (err : option GoError) (saved : Bucket),
    SaveSafe b dbID bucket opts st = (st', Done (saved, err)) /\
    Collection_Save (Buckets_Collection b) dbID saved opts st = (st', err) /\
    saved = ensureNoNulls bucket /\
    is_Some (Bucket_Items saved) /\
    Archives_History (Bucket_Archives saved) =
      Some (default [] (Archives_History (Bucket_Archives bucket))) /\
    (no_null_deals bucket -> no_null_deals saved).
Proof.
  eexists _, _, _. split; [apply SaveSafe_submits |].
  split; [by destruct (Collection_Save _ _ _ _ _) |].
  split; [reflexivity |].
  rewrite ensureNoNulls_closed_form. simpl.
  split; [by eexists |]. split; [reflexivity |].
  intros [Hc Hh]. split; [exact Hc |].
  simpl. intros h [= <-].
  destruct (Archives_History (Bucket_Archives bucket)) as [h0|] eqn:E; simpl.
  - by apply Hh.
  - constructor.
Qed.

Lemma SaveSafe_keeps_deals_non_nil_witness :
  exists (st' : list string) (err : option GoError) (saved : Bucket),
    SaveSafe (demo_Buckets None (inl running_record)) "db" decoded_bucket
      None [] = (st', Done (saved, err)) /\
    Bucket_Items decoded_bucket = None /\
    Bucket_Items saved = Some ∅ /\
    Archives_History (Bucket_Archives saved) =
      Some [ {| Archive_Cid := "a1";
                Archive_Deals :=
                  Some [ {| Deal_ProposalCid := "p1";
                            Deal_Miner := "m1" |} ] |} ] /\
    no_null_deals saved.
Proof.
  destruct (SaveSafe_keeps_deals_non_nil
              (demo_Buckets None (inl running_record)) "db" decoded_bucket
              None [])
    as (st' & err & saved & Hrun & _ & Hsaved & _ & Hhist & Hkeep).
  exists st', err, saved.
  split; [exact Hrun |]. split; [reflexivity |].
  split; [by rewrite Hsaved |]. split; [exact Hhist |].
  apply Hkeep. split.
  - simpl. by eexists.
  - simpl. intros h [= <-]. repeat constructor. simpl. by eexists.
Defined.

(** C3, as stated, fails on [archived_bucket]: after normalisation its
    current archive and its history entry still have nil Deals. *)
Lemma ensureNoNulls_leaves_nil_deals :
  Archive_Deals
    (Archives_Current (Bucket_Archives (ensureNoNulls archived_bucket)))
    = None /\
  Archives_History (Bucket_Archives (ensureNoNulls archived_bucket))
    = Some [ {| Archive_Cid := "a1"; Archive_Deals := None |} ] /\
  ~ no_null_deals (ensureNoNulls archived_bucket).
Proof.
  split; [reflexivity |]. split; [reflexivity |].
  intros [[d Hd] _]. discriminate Hd.
Qed.

(** ** The validator *)

Lemma indexOf_lower_bound (arr : list string) (s : string) :
  -1 <= indexOf arr s.
Proof.
  induction arr as [|a rest IH]; simpl; [lia |].
  destruct (String.eqb a s); [lia |].
  destruct (Z.eqb_spec (indexOf rest s) (-1)); lia.
Qed.

(** [indexOf] answers -1 exactly for the strings that are not members. *)
Lemma indexOf_absent (arr : list string) (s : string) :
  indexOf arr s = -1 <-> ~ In s arr.
Proof.
  induction arr as [|a rest IH]; simpl.
  - split; [intros _ [] | reflexivity].
  - destruct (String.eqb_spec a s) as [-> | Hne].
    + split; [lia | intros H; exfalso; apply H; by left].
    + pose proof (indexOf_lower_bound rest s) as Hlb.
      destruct (Z.eqb_spec (indexOf rest s) (-1)) as [He | Hn].
      * split; [| reflexivity].
        intros _ [Ha | Hin]; [by apply Hne | by apply IH in Hin].
      * split; [lia |].
        intros Hnot. exfalso. apply Hn, IH. intros Hin. apply Hnot. by right.
Qed.

Lemma indexOf_present (arr : list string) (s : string) :
  indexOf arr s <> -1 <-> In s arr.
Proof.
  destruct (in_dec string_dec s arr) as [Hin | Hno].
  - split; [done |]. intros _ He. by apply indexOf_absent in He.
  - split; [| done]. intros Hn. exfalso. by apply Hn, indexOf_absent.
Qed.

(** The save loop accepts exactly when every iteration completes. *)
Lemma save_loop_accepts (items : list (string * option PatchItem))
    (author : string) (instance : option Bucket) (keys : list string) :
  save_loop items author instance keys = Accept <->
  Forall (fun k => save_iteration items author instance k = None) keys.
Proof.
  induction keys as [|k rest IH]; simpl.
  - split; [constructor | reflexivity].
  - destruct (save_iteration items author instance k) as [v|] eqn:E.
    + split.
      * intros ->. exfalso. revert E. unfold save_iteration.
        repeat case_match; congruence.
      * intros H. inversion H; congruence.
    + rewrite IH. split.
      * intros H. by constructor.
      * intros H. by inversion H.
Qed.

(** The iteration for a path the instance holds, by the entry of the
    patch, the ACL guard and the Write set. *)
Lemma save_iteration_own (items : list (string * option PatchItem))
    (author : string) (inst : Bucket) (k : string) (p : PatchItem)
    (m : gmap string Item) (x : Item) :
  js_get items k = Some (Some p) ->
  Bucket_Items inst = Some m ->
  m !! k = Some x ->
  save_iteration items author (Some inst) k =
    let write_check :=
      match ACL_Write (Item_ACL x) with
      | None => Some TypeError
      | Some w =>
          if Z.eqb (indexOf w author) (-1)
          then Some (Reject "author does not have write access")
          else None
      end in
    match p_acl p with
    | Some _ =>
        if String.eqb author (Bucket_Owner inst) then write_check
        else Some (Reject "only owner can modify bucket access rules")
    | None => write_check
    end.
Proof.
  intros Hp Hm Hx. unfold save_iteration, items_get. rewrite Hp, Hm, Hx.
  destruct (p_acl p) as [a|]; simpl; [| done].
  by destruct (String.eqb author (Bucket_Owner inst)).
Qed.

(** C1, as amended.  For a path of the patch that exists in the items of
    the instance: if the entry of the patch is null the script raises;
    if it is an object, the iteration for that path completes exactly
    when the author is in the Write set of the stored item and, if the
    entry carries an ACL, is also the owner.  A non-owner changing the
    ACL is rejected with "only owner can modify bucket access rules";
    past that guard, an author outside a non-null Write set is rejected
    with "author does not have write access". *)
Theorem save_iteration_existing_path
    (items : list (string * option PatchItem)) (author : string)
    (inst : Bucket) (k : string) (entry : option PatchItem)
    (m : gmap string Item) (x : Item) :
  js_get items k = Some entry ->
  Bucket_Items inst = Some m ->
  m !! k = Some x ->
  (entry = None ->
   save_iteration items author (Some inst) k = Some TypeError) /\
  (forall p : PatchItem,
     entry = Some p ->
     (save_iteration items author (Some inst) k = None <->
      (is_Some (p_acl p) -> author = Bucket_Owner inst) /\
      exists w : list string,
        ACL_Write (Item_ACL x) = Some w /\ In author w) /\
     (is_Some (p_acl p) -> author <> Bucket_Owner inst ->
      save_iteration items author (Some inst) k =
        Some (Reject "only owner can modify bucket access rules")) /\
     ((is_Some (p_acl p) -> author = Bucket_Owner inst) ->
      forall w : list string,
        ACL_Write (Item_ACL x) = Some w -> ~ In author w ->
        save_iteration items author (Some inst) k =
          Some (Reject "author does not have write access"))).
Proof.
  intros Hp Hm Hx. split.
  { intros ->. unfold save_iteration. by rewrite Hp. }
  intros p ->. rewrite (save_iteration_own items author inst k p m x Hp Hm Hx).
  cbv zeta.
  destruct (p_acl p) as [a|] eqn:Hacl;
    destruct (String.eqb_spec author (Bucket_Owner inst)) as [Ho | Ho];
    destruct (ACL_Write (Item_ACL x)) as [w|] eqn:Hw; simpl;
    try (destruct (Z.eqb_spec (indexOf w author) (-1)) as [Hi | Hi];
         [apply indexOf_absent in Hi | apply indexOf_present in Hi]);
    (split; [split |]); try split;
    try (intros [Hown [w' [Hw' Hin']]]);
    intros; simplify_eq;
    try (exfalso; apply Ho; apply Hown; by eexists);
    try done;
    try (split; [done | by eexists]);
    try (exfalso; apply Ho; match goal with H : _ -> _ |- _ => apply H end;
         by eexists);
    eauto.
Qed.

Lemma save_iteration_existing_path_witness :
  (Some {| p_cid := Some "c2"; p_acl := None;
           p_created_at := None; p_updated_at := Some 7 |} = None ->
   save_iteration cid_patch_items "N" (Some shared_bucket) "a.txt" =
     Some TypeError) /\
  (forall p : PatchItem,
     Some {| p_cid := Some "c2"; p_acl := None;
             p_created_at := None; p_updated_at := Some 7 |} = Some p ->
     (save_iteration cid_patch_items "N" (Some shared_bucket) "a.txt" = None
      <->
      (is_Some (p_acl p) -> "N" = "O") /\
      exists w : list string,
        ACL_Write shared_acl = Some w /\ In "N" w) /\
     (is_Some (p_acl p) -> "N" <> "O" ->
      save_iteration cid_patch_items "N" (Some shared_bucket) "a.txt" =
        Some (Reject "only owner can modify bucket access rules")) /\
     ((is_Some (p_acl p) -> "N" = "O") ->
      forall w : list string,
        ACL_Write shared_acl = Some w -> ~ In "N" w ->
        save_iteration cid_patch_items "N" (Some shared_bucket) "a.txt" =
          Some (Reject "author does not have write access"))).
Proof.
  apply (save_iteration_existing_path cid_patch_items "N" shared_bucket
           "a.txt"
           (Some {| p_cid := Some "c2"; p_acl := None;
                    p_created_at := None; p_updated_at := Some 7 |})
           {[ "a.txt" := {| Item_Cid := "c1"; Item_ACL := shared_acl;
                            Item_CreatedAt := 1; Item_UpdatedAt := 1 |} ]}
           {| Item_Cid := "c1"; Item_ACL := shared_acl;
              Item_CreatedAt := 1; Item_UpdatedAt := 1 |}).
  - reflexivity.
  - reflexivity.
  - vm_compute. reflexivity.
Defined.

(** C1, as stated, fails.  In [delegated_bucket] the owner O is not in
    the Write set of "a.txt"; a save patch by O that carries an ACL for
    "a.txt" is rejected with "author does not have write access", although
    O is the owner and the patch modifies the ACL.  Neither the reading by
    alternatives nor the reading by cases of the rule survives. *)
Lemma save_rule_as_stated_fails :
  ValidatorFunc acl_save_event "O" (Some delegated_bucket) =
    Reject "author does not have write access" /\
  ~ save_rule_disjunctive acl_patch_items "O" delegated_bucket "a.txt" /\
  ~ save_rule_by_cases acl_patch_items "O" delegated_bucket "a.txt".
Proof.
  assert (save_iteration acl_patch_items "O" (Some delegated_bucket) "a.txt"
          <> None) as Hrej.
  { vm_compute. discriminate. }
  split; [vm_compute; reflexivity |]. split.
  - intros H.
    specialize (H _ _ _ ["N"] eq_refl eq_refl
                  (lookup_singleton_eq _ _) eq_refl).
    apply Hrej, H. right. split; [by eexists | reflexivity].
  - intros H.
    specialize (H _ _ _ ["N"] eq_refl eq_refl
                  (lookup_singleton_eq _ _) eq_refl).
    apply Hrej, H. split; [reflexivity |].
    intros Hno. exfalso. apply Hno. by eexists.
Qed.

(** A writer who is not the owner cannot change an ACL: N is in the Write
    set of "a.txt" in [shared_bucket], and a save patch by N that carries
    an ACL for "a.txt" is rejected. *)
Lemma save_acl_change_by_writer_rejected :
  ValidatorFunc acl_save_event "N" (Some shared_bucket) =
    Reject "only owner can modify bucket access rules" /\
  ~ save_rule_disjunctive acl_patch_items "N" shared_bucket "a.txt".
Proof.
  split; [vm_compute; reflexivity |].
  intros H.
  specialize (H _ _ _ ["O"; "N"] eq_refl eq_refl
                (lookup_singleton_eq _ _) eq_refl).
  destruct H as [_ H].
  assert (save_iteration acl_patch_items "N" (Some shared_bucket) "a.txt"
          = None) as Hn.
  { apply H. left. simpl. auto. }
  vm_compute in Hn. discriminate Hn.
Qed.

(** The whole script on a save patch: it accepts exactly when the
    iteration of every key of the patch completes. *)
Lemma ValidatorFunc_save (event : Event) (author : string)
    (instance : option Bucket) (patch : JsonPatch)
    (items : list (string * option PatchItem)) :
  patch_type (event_patch event) = "save" ->
  patch_json_patch (event_patch event) = Some patch ->
  jp_items patch = Some items ->
  (ValidatorFunc event author instance = Accept <->
   Forall (fun k => save_iteration items author instance k = None)
          (js_keys items)).
Proof.
  intros Ht Hp Hi. unfold ValidatorFunc. rewrite Ht, Hp, Hi. simpl.
  apply save_loop_accepts.
Qed.

(** The "delete" case reads the member [owner] of the patch envelope and
    nothing of the instance. *)
Lemma ValidatorFunc_delete (event : Event) (author : string)
    (instance : option Bucket) :
  patch_type (event_patch event) = "delete" ->
  ValidatorFunc event author instance =
    if strict_ne (patch_owner (event_patch event)) author
    then Reject "author must match new bucket owner"
    else Accept.
Proof. intros Ht. unfold ValidatorFunc. by rewrite Ht. Qed.

(** C5.  A delete whose author O is the owner of the current instance is
    rejected with "author must match new bucket owner" when the patch
    envelope has no member [owner]; and even a patch envelope naming O
    is accepted for an instance owned by somebody else. *)
Theorem ValidatorFunc_delete_by_owner_rejected :
  Bucket_Owner shared_bucket = "O" /\
  ValidatorFunc delete_event "O" (Some shared_bucket) =
    Reject "author must match new bucket owner" /\
  ValidatorFunc
    {| event_patch :=
         {| patch_type := "delete"; patch_json_patch := None;
            patch_owner := Some "N" |} |}
    "N" (Some shared_bucket) = Accept.
Proof. repeat split. Qed.

(** C8.  On a create patch the script accepts exactly when the member
    [owner] of the patch is the author, and otherwise returns
    "author must match new bucket owner". *)
Theorem ValidatorFunc_create (event : Event) (author : string)
    (instance : option Bucket) (patch : JsonPatch) :
  patch_type (event_patch event) = "create" ->
  patch_json_patch (event_patch event) = Some patch ->
  (ValidatorFunc event author instance = Accept <->
   jp_owner patch = Some author) /\
  (jp_owner patch <> Some author ->
   ValidatorFunc event author instance =
     Reject "author must match new bucket owner").
Proof.
  intros Ht Hp. unfold ValidatorFunc. rewrite Ht, Hp. simpl.
  destruct (jp_owner patch) as [o|]; simpl.
  - destruct (String.eqb_spec o author) as [-> | Hne]; simpl.
    + split; [split; done | intros H; by exfalso].
    + split; [split; [done | intros [= ->]; by exfalso] | done].
  - split; [split; done | done].
Qed.

Lemma ValidatorFunc_create_witness :
  (ValidatorFunc create_event "O" None = Accept <-> Some "O" = Some "O") /\
  (Some "O" <> Some "O" ->
   ValidatorFunc create_event "O" None =
     Reject "author must match new bucket owner").
Proof.
  apply (ValidatorFunc_create create_event "O" None
           {| jp_owner := Some "O"; jp_items := Some [] |}).
  - reflexivity.
  - reflexivity.
Defined.

(** ** Provisioning of the FFS instance *)

(** Without a Powergate client nothing is done. *)
Lemma createFFSInstance_disabled {St : Type} (b : Buckets St)
    (bucketKey : string) (st : St) :
  Buckets_pgClient b = None ->
  createFFSInstance b bucketKey st = (st, Done None).
Proof. intros H. unfold createFFSInstance. by rewrite H. Qed.

(** C10.  Once [FFS.Create] and [FFS.Info] have answered without error,
    [createFFSInstance] reads [Balances[0]] with no guard: it panics with
    an index out of range exactly when the balance list of the reply is
    empty (or nil), before anything is saved; with at least one entry it
    returns. *)
Theorem createFFSInstance_balances_unguarded {St : Type} (b : Buckets St)
    (pg : PowClient St) (bucketKey id token : string) (i : InstanceInfo)
    (st st1 st2 : St) :
  Buckets_pgClient b = Some pg ->
  FFS_Create pg st = (st1, (id, token, None)) ->
  FFS_Info pg token st1 = (st2, (i, None)) ->
  (len (InstanceInfo_Balances i) = 0%nat ->
   createFFSInstance b bucketKey st =
     (st2, Panic "runtime error: index out of range [0] with length 0")) /\
  ((exists (st' : St) (msg : string),
      createFFSInstance b bucketKey st = (st', Panic msg)) <->
   len (InstanceInfo_Balances i) = 0%nat).
Proof.
  intros Hpg Hc Hi. unfold createFFSInstance, bind, call.
  rewrite Hpg, Hc, Hi. simpl.
  destruct (InstanceInfo_Balances i) as [[|b0 rest]|]; simpl.
  - split; [reflexivity |]. split; [reflexivity | eauto].
  - split; [discriminate |]. split; [| discriminate].
    intros (st' & msg & H). exfalso. revert H.
    unfold ret.
    destruct (FFSInstances_Create _ _ _ _ _) as [st3 [e|]]; [discriminate |].
    destruct (FFS_SetDefaultConfig _ _ _ _) as [st4 [e|]]; discriminate.
  - split; [reflexivity |]. split; [reflexivity | eauto].
Qed.

Lemma createFFSInstance_balances_unguarded_witness :
  (len (Some [] : option (list BalanceInfo)) = 0%nat ->
   createFFSInstance
     (demo_Buckets (Some (demo_PowClient (Some []))) (inl running_record))
     "k" [] =
     (["ffs.create"; "ffs.info"],
      Panic "runtime error: index out of range [0] with length 0")) /\
  ((exists (st' : list string) (msg : string),
      createFFSInstance
        (demo_Buckets (Some (demo_PowClient (Some []))) (inl running_record))
        "k" [] = (st', Panic msg)) <->
   len (Some [] : option (list BalanceInfo)) = 0%nat).
Proof.
  apply (createFFSInstance_balances_unguarded
           (demo_Buckets (Some (demo_PowClient (Some [])))
              (inl running_record))
           (demo_PowClient (Some [])) "k" "ffs-1" "tok-1"
           {| InstanceInfo_Balances := Some [] |}
           [] ["ffs.create"] ["ffs.create"; "ffs.info"]).
  - reflexivity.
  - reflexivity.
  - reflexivity.
Defined.

(** ** ArchiveStatus *)

(** A failed read of the instance record is reported as such. *)
Lemma ArchiveStatus_read_error {St : Type} (Failed : Z) (b : Buckets St)
    (key : string) (st st' : St) (e : GoError) :
  FFSInstances_Get (Buckets_ffsCol b) key st = (st', inr e) ->
  ArchiveStatus Failed b key st =
    (st', Done (Failed, "",
                Some (Errorf ("getting ffs instance data: " +:+ Error e)))).
Proof. intros H. unfold ArchiveStatus, bind, call. by rewrite H. Qed.

(** C7, as amended.  When the instance record is read: the result is the
    "no current archive" error exactly when no job id is recorded; it is
    the aborted error carrying the recorded message exactly when a job id
    is recorded and the current archive is flagged aborted; otherwise it
    is the job status with the failure message and no error. *)
Theorem ArchiveStatus_cases {St : Type} (Failed : Z) (b : Buckets St)
    (key : string) (st st' : St) (ffsi : FFSInstance) :
  FFSInstances_Get (Buckets_ffsCol b) key st = (st', inl ffsi) ->
  let current := FFSArchives_Current (FFSInstance_Archives ffsi) in
  let r := ArchiveStatus Failed b key st in
  (r = (st', Done (Failed, "", Some ErrNoCurrentArchive)) <->
   FFSArchive_JobID current = "") /\
  (r = (st', Done (Failed, "",
          Some (Errorf ("job status tracking was aborted: "
                        +:+ FFSArchive_AbortedMsg current)))) <->
   FFSArchive_JobID current <> "" /\ FFSArchive_Aborted current = true) /\
  (FFSArchive_JobID current <> "" -> FFSArchive_Aborted current = false ->
   r = (st', Done (FFSArchive_JobStatus current,
                   FFSArchive_FailureMsg current, None))).
Proof.
  intros Hget current r. subst r.
  unfold ArchiveStatus, bind, call. rewrite Hget. simpl. fold current.
  destruct (String.eqb_spec (FFSArchive_JobID current) "") as [Hj | Hj].
  - unfold ret. split; [done |]. split; [| done].
    split; [discriminate | by intros [? _]].
  - unfold ret. destruct (FFSArchive_Aborted current) eqn:Ha.
    + split; [split; [discriminate | done] |].
      split; [done | discriminate].
    + split; [split; [discriminate | done] |].
      split; [| done]. split; [discriminate | by intros [_ ?]].
Qed.

Lemma ArchiveStatus_cases_witness :
  let current :=
    FFSArchives_Current (FFSInstance_Archives running_record) in
  let r := ArchiveStatus 3 (demo_Buckets None (inl running_record)) "k" [] in
  (r = (["ffsinstances.get"], Done (3, "", Some ErrNoCurrentArchive)) <->
   FFSArchive_JobID current = "") /\
  (r = (["ffsinstances.get"],
        Done (3, "",
          Some (Errorf ("job status tracking was aborted: "
                        +:+ FFSArchive_AbortedMsg current)))) <->
   FFSArchive_JobID current <> "" /\ FFSArchive_Aborted current = true) /\
  (FFSArchive_JobID current <> "" -> FFSArchive_Aborted current = false ->
   r = (["ffsinstances.get"],
        Done (FFSArchive_JobStatus current,
              FFSArchive_FailureMsg current, None))).
Proof.
  apply (ArchiveStatus_cases 3 (demo_Buckets None (inl running_record))
           "k" [] ["ffsinstances.get"] running_record).
  reflexivity.
Defined.

(** C7, as stated, fails on a record that is flagged aborted and carries
    no job id: the result is the "no current archive" error, not the
    aborted error. *)
Lemma ArchiveStatus_aborted_without_job :
  let current :=
    FFSArchives_Current (FFSInstance_Archives aborted_unsubmitted_record) in
  let r :=
    ArchiveStatus 3 (demo_Buckets None (inl aborted_unsubmitted_record))
      "k" [] in
  FFSArchive_Aborted current = true /\
  r = (["ffsinstances.get"], Done (3, "", Some ErrNoCurrentArchive)) /\
  ~ (r = (["ffsinstances.get"],
          Done (3, "",
            Some (Errorf ("job status tracking was aborted: "
                          +:+ FFSArchive_AbortedMsg current)))) <->
     FFSArchive_Aborted current = true).
Proof.
  split; [reflexivity |]. split; [reflexivity |].
  intros [_ H]. specialize (H eq_refl). discriminate H.
Qed.

(** ** Bucket creation *)

(** Whatever the store and the provisioning answer, the part of [New]
    that follows the token check never returns the mismatch error: its
    own errors carry other prefixes. *)
Lemma New_create_never_mismatch {St : Type} (b : Buckets St) (now : Z)
    (dbID key : string) (pth : IpfsPath) (owner : option PubKey)
    (args : BucketOptions) (encKey : string) (st st' : St) :
  New_create b now dbID key pth owner args encKey st <>
    (st', Done token_owner_mismatch).
Proof.
  unfold New_create, bind, call, ret, token_owner_mismatch, wrap.
  destruct (Collection_Create _ _ _ _ _) as [st1 [id [e|]]].
  - simpl. intros H. injection H as _ H. discriminate H.
  - destruct (createFFSInstance b key st1) as [st2 [[e|]|msg]];
      simpl; [| discriminate | discriminate].
    intros H. injection H as _ H. discriminate H.
Qed.

(** C9, as amended.  With a token present: if reading its key fails, [New]
    returns that error; if the token yields a key and an owner is given,
    [New] returns the "token owner mismatch" error exactly when the two
    print differently; if the token yields no key, no check is made.
    With no token, no check is made either, whoever the owner is. *)
Theorem New_token_owner_check {St : Type}
    (base64_EncodeToString : list Byte.byte -> string) (b : Buckets St)
    (now : Z) (dbID key : string) (pth : IpfsPath) (owner : option PubKey)
    (opts : list BucketOption) (st : St) :
  let args := fold_left (fun args opt => opt args) opts zero_BucketOptions in
  let token := BucketOptions_Token args in
  let encKey :=
    match BucketOptions_Key args with
    | Some k => base64_EncodeToString k
    | None => ""
    end in
  let r := New base64_EncodeToString b now dbID key pth owner opts st in
  let unchecked := New_create b now dbID key pth owner args encKey st in
  (Token_Defined token = true ->
   (forall (k : option PubKey) (e : GoError),
      Token_PubKey token = (k, Some e) -> r = (st, Done (None, Some e))) /\
   (forall t o : PubKey,
      Token_PubKey token = (Some t, None) -> owner = Some o ->
      (r = (st, Done token_owner_mismatch) <->
       PubKey_String o <> PubKey_String t) /\
      (PubKey_String o = PubKey_String t -> r = unchecked)) /\
   (Token_PubKey token = (None, None) -> r = unchecked)) /\
  (Token_Defined token = false ->
   r = unchecked /\ forall st' : St, r <> (st', Done token_owner_mismatch)).
Proof.
  intros args token encKey r unchecked. subst r. unfold New.
  fold args. fold token. fold encKey. fold unchecked.
  split.
  - intros Hd. rewrite Hd. split; [| split].
    + intros k e Hk. by rewrite Hk.
    + intros t o Hk -> . rewrite Hk.
      destruct (String.eqb_spec (PubKey_String o) (PubKey_String t))
        as [He | Hne]; simpl.
      * split; [| done]. split; [| done].
        intros H. exfalso.
        by apply (New_create_never_mismatch b now dbID key pth (Some o)
                    args encKey st st).
      * split; [done | by intros He].
    + intros Hk. by rewrite Hk.
  - intros Hd. rewrite Hd. split; [done |].
    intros st'. apply New_create_never_mismatch.
Qed.

Lemma New_token_owner_check_witness :
  let opts := [WithNewBucketName "photos"; WithNewBucketToken token_of_O] in
  let owner := Some {| PubKey_String := "N" |} in
  let b := demo_Buckets None (inl running_record) in
  let args := fold_left (fun args opt => opt args) opts zero_BucketOptions in
  let token := BucketOptions_Token args in
  let encKey :=
    match BucketOptions_Key args with
    | Some k => ""
    | None => ""
    end in
  let r := New (fun _ => "") b 10 "db" "k" {| IpfsPath_String := "/ipfs/r" |}
             owner opts [] in
  let unchecked :=
    New_create b 10 "db" "k" {| IpfsPath_String := "/ipfs/r" |} owner args
      encKey [] in
  Token_Defined token = true /\
  Token_PubKey token = (Some {| PubKey_String := "O" |}, None) /\
  (r = ([], Done token_owner_mismatch) <-> "N" <> "O").
Proof.
  intros opts owner b args token encKey r unchecked.
  split; [reflexivity |]. split; [reflexivity |].
  pose proof (New_token_owner_check (fun _ => "") b 10 "db" "k"
                {| IpfsPath_String := "/ipfs/r" |} owner opts [])
    as [Hdef _].
  destruct (Hdef eq_refl) as (_ & Hcheck & _).
  exact (proj1 (Hcheck {| PubKey_String := "O" |} {| PubKey_String := "N" |}
                  eq_refl eq_refl)).
Defined.

(** C9, as stated, fails.  On a token that cannot be parsed no subject
    matches the owner O, and [New] returns the parse error, not the
    mismatch error.  On a token issued to O with no owner given, the
    comparison dereferences the nil owner: [New] panics and returns no
    error at all. *)
Lemma New_token_rule_as_stated_fails :
  let b := demo_Buckets None (inl running_record) in
  let pth := {| IpfsPath_String := "/ipfs/r" |} in
  let owner := Some {| PubKey_String := "O" |} in
  New (fun _ => "") b 10 "db" "k" pth owner
      [WithNewBucketToken malformed_token] []
    = ([], Done (None, Some (Errorf "unable to parse token"))) /\
  ~ token_rule_as_stated b 10 "db" "k" pth owner malformed_token [] /\
  New (fun _ => "") b 10 "db" "k" pth None [WithNewBucketToken token_of_O] []
    = ([], Panic
             "runtime error: invalid memory address or nil pointer dereference")
    /\
  ~ token_rule_as_stated b 10 "db" "k" pth None token_of_O [].
Proof.
  split; [reflexivity |]. split; [| split; [reflexivity |]].
  - intros H. destruct (H eq_refl) as [_ Hback].
    destruct Hback as [st' Hst'].
    + intros (t & o & Ht & _). discriminate Ht.
    + discriminate Hst'.
  - intros H. destruct (H eq_refl) as [_ Hback].
    destruct Hback as [st' Hst'].
    + intros (t & o & _ & Ho & _). discriminate Ho.
    + discriminate Hst'.
Qed.

(** * Further properties *)

(** ** UpsertItemAtPath on every bucket *)

(** Whenever the item map is non-nil the call returns, and writes one
    item at [pth]. *)
Lemma UpsertItemAtPath_some
    (b : Bucket) (m : gmap string Item) (pth : string) (cid : Cid)
    (updated : Time) :
  Bucket_Items b = Some m ->
  exists x' : Item,
    UpsertItemAtPath b pth cid updated =
      Done (set_Items b (Some (<[pth := x']> m)), None) /\
    Item_Cid x' = Cid_String cid /\
    Item_UpdatedAt x' = UnixNano updated /\
    ((forall x : Item,
        m !! pth = Some x -> Item_CreatedAt x <= UnixNano updated) ->
     item_times_ordered x').
Proof.
  intros Hm. destruct (m !! pth) as [x|] eqn:Hx.
  - destruct (decide (Item_Cid x = Cid_String cid)) as [He | Hne].
    + eexists. split; [by apply (UpsertItemAtPath_same b m pth x) |].
      repeat (split; [done |]). intros _.
      unfold item_times_ordered, fresh_Item. simpl. lia.
    + eexists. split; [by apply (UpsertItemAtPath_changed b m pth x) |].
      repeat (split; [done |]). intros Hlate.
      unfold item_times_ordered. simpl. by apply Hlate.
  - eexists. split; [by apply (UpsertItemAtPath_absent b m pth) |].
    repeat (split; [done |]). intros _.
    unfold item_times_ordered, fresh_Item. simpl. lia.
Qed.

(** X1.  [UpsertItemAtPath] returns exactly when the item map is non-nil
    and panics on a nil map; when it returns, the error is nil. *)
Theorem UpsertItemAtPath_returns_iff_map
    (b : Bucket) (pth : string) (cid : Cid) (updated : Time) :
  ((exists b' : Bucket,
      UpsertItemAtPath b pth cid updated = Done (b', None)) <->
   is_Some (Bucket_Items b)) /\
  (forall (b' : Bucket) (e : option GoError),
     UpsertItemAtPath b pth cid updated = Done (b', e) -> e = None) /\
  (Bucket_Items b = None ->
   UpsertItemAtPath b pth cid updated =
     Panic "assignment to entry in nil map").
Proof.
  destruct (Bucket_Items b) as [m|] eqn:Hm.
  - destruct (UpsertItemAtPath_some b m pth cid updated Hm)
      as (x' & Hb' & _).
    split; [split; [by eexists | by eexists] |].
    split; [| done].
    intros b'' e. rewrite Hb'. by intros [= _ <-].
  - rewrite (UpsertItemAtPath_nil b pth cid updated Hm).
    split; [split; [by intros [? ?] | by intros [? ?]] |].
    split; [done | done].
Qed.

(** X2.  Whenever [UpsertItemAtPath] returns, the item at [pth] carries the
    given content address and the given time as UpdatedAt, the map has
    gained at most the key [pth], every other path holds what it held, and
    no other field of the bucket has changed. *)
Theorem UpsertItemAtPath_frame
    (b b' : Bucket) (e : option GoError) (pth : string) (cid : Cid)
    (updated : Time) :
  UpsertItemAtPath b pth cid updated = Done (b', e) ->
  exists (m m' : gmap string Item) (x' : Item),
    Bucket_Items b = Some m /\
    Bucket_Items b' = Some m' /\
    m' !! pth = Some x' /\
    Item_Cid x' = Cid_String cid /\
    Item_UpdatedAt x' = UnixNano updated /\
    (forall q : string, q <> pth -> m' !! q = m !! q) /\
    dom m' = {[pth]} ∪ dom m /\
    set_Items b' (Bucket_Items b) = b.
Proof.
  intros H.
  destruct (Bucket_Items b) as [m|] eqn:Hm;
    [| by rewrite (UpsertItemAtPath_nil b pth cid updated Hm) in H].
  destruct (UpsertItemAtPath_some b m pth cid updated Hm)
    as (x' & Hu & Hc & Ht & _).
  rewrite Hu in H. injection H as <- _.
  exists m, (<[pth := x']> m), x'.
  split; [done |]. split; [done |]. split; [apply lookup_insert_eq |].
  split; [done |]. split; [done |]. split.
  { intros q Hq. by rewrite lookup_insert_ne. }
  split; [apply dom_insert_L |].
  rewrite set_Items_twice, <- Hm. apply set_Items_same.
Qed.

Lemma UpsertItemAtPath_frame_witness :
  exists (m m' : gmap string Item) (x' : Item),
    Bucket_Items shared_bucket = Some m /\
    Bucket_Items
      (set_Items shared_bucket
         (Some (<["b.txt" := fresh_Item "O" {| Cid_String := "c9" |}
                               {| UnixNano := 4 |}]>
                  {[ "a.txt" := {| Item_Cid := "c1"; Item_ACL := shared_acl;
                                   Item_CreatedAt := 1;
                                   Item_UpdatedAt := 1 |} ]})))
      = Some m' /\
    m' !! "b.txt" = Some x' /\
    Item_Cid x' = "c9" /\
    Item_UpdatedAt x' = 4 /\
    (forall q : string, q <> "b.txt" -> m' !! q = m !! q) /\
    dom m' = {["b.txt"]} ∪ dom m /\
    set_Items
      (set_Items shared_bucket
         (Some (<["b.txt" := fresh_Item "O" {| Cid_String := "c9" |}
                               {| UnixNano := 4 |}]>
                  {[ "a.txt" := {| Item_Cid := "c1"; Item_ACL := shared_acl;
                                   Item_CreatedAt := 1;
                                   Item_UpdatedAt := 1 |} ]})))
      (Bucket_Items shared_bucket) = shared_bucket.
Proof.
  apply (UpsertItemAtPath_frame shared_bucket _ None "b.txt"
           {| Cid_String := "c9" |} {| UnixNano := 4 |}).
  apply (UpsertItemAtPath_absent shared_bucket
           {[ "a.txt" := {| Item_Cid := "c1"; Item_ACL := shared_acl;
                            Item_CreatedAt := 1; Item_UpdatedAt := 1 |} ]}).
  - reflexivity.
  - vm_compute. reflexivity.
Defined.

(** X3.  On a path the bucket does not hold, [UpsertItemAtPath] creates an
    item created and updated at the given time whose Write, Read and
    Delete sets each name the owner alone; in a bucket without owner the
    three sets are nil. *)
Theorem UpsertItemAtPath_creates_owner_acl
    (b : Bucket) (m : gmap string Item) (pth : string) (cid : Cid)
    (updated : Time) :
  Bucket_Items b = Some m ->
  m !! pth = None ->
  exists x' : Item,
    item_after (UpsertItemAtPath b pth cid updated) pth = Some x' /\
    Item_Cid x' = Cid_String cid /\
    Item_CreatedAt x' = UnixNano updated /\
    Item_UpdatedAt x' = UnixNano updated /\
    (Bucket_Owner b <> "" ->
     Item_ACL x' =
       {| ACL_Write := Some [Bucket_Owner b];
          ACL_Read := Some [Bucket_Owner b];
          ACL_Delete := Some [Bucket_Owner b] |}) /\
    (Bucket_Owner b = "" -> Item_ACL x' = zero_ACL).
Proof.
  intros Hm Hx. exists (fresh_Item (Bucket_Owner b) cid updated).
  rewrite (UpsertItemAtPath_absent b m pth cid updated Hm Hx). simpl.
  rewrite lookup_insert_eq. simpl.
  repeat (split; [reflexivity |]). unfold fresh_Item. split.
  - intros Ho. by rewrite (eqb_false_of_ne _ _ Ho).
  - intros ->. reflexivity.
Qed.

Lemma UpsertItemAtPath_creates_owner_acl_witness :
  exists x' : Item,
    item_after
      (UpsertItemAtPath shared_bucket "b.txt" {| Cid_String := "c9" |}
         {| UnixNano := 4 |}) "b.txt" = Some x' /\
    Item_Cid x' = "c9" /\
    Item_CreatedAt x' = 4 /\
    Item_UpdatedAt x' = 4 /\
    ("O" <> "" ->
     Item_ACL x' =
       {| ACL_Write := Some ["O"]; ACL_Read := Some ["O"];
          ACL_Delete := Some ["O"] |}) /\
    ("O" = "" -> Item_ACL x' = zero_ACL).
Proof.
  apply (UpsertItemAtPath_creates_owner_acl shared_bucket
           {[ "a.txt" := {| Item_Cid := "c1"; Item_ACL := shared_acl;
                            Item_CreatedAt := 1; Item_UpdatedAt := 1 |} ]}
           "b.txt" {| Cid_String := "c9" |} {| UnixNano := 4 |}).
  - reflexivity.
  - vm_compute. reflexivity.
Defined.

(** X4.  If no item of the bucket was updated before it was created, and
    the given time is not earlier than the creation of the item at [pth],
    if there is one, then the same holds of every item after
    [UpsertItemAtPath]. *)
Theorem UpsertItemAtPath_keeps_times_ordered
    (b b' : Bucket) (e : option GoError) (m m' : gmap string Item)
    (pth : string) (cid : Cid) (updated : Time) :
  Bucket_Items b = Some m ->
  map_Forall (fun _ x => item_times_ordered x) m ->
  (forall x : Item, m !! pth = Some x -> Item_CreatedAt x <= UnixNano updated) ->
  UpsertItemAtPath b pth cid updated = Done (b', e) ->
  Bucket_Items b' = Some m' ->
  map_Forall (fun _ x => item_times_ordered x) m'.
Proof.
  intros Hm Hall Hlate Hu Hm'.
  destruct (UpsertItemAtPath_some b m pth cid updated Hm)
    as (x' & Hx' & _ & _ & Hord).
  rewrite Hx' in Hu. injection Hu as <- _.
  simpl in Hm'. injection Hm' as <-.
  specialize (Hord Hlate).
  by apply map_Forall_insert_2.
Qed.

Lemma UpsertItemAtPath_keeps_times_ordered_witness :
  map_Forall (fun _ x => item_times_ordered x)
    (<["a.txt" := {| Item_Cid := "c2"; Item_ACL := shared_acl;
                     Item_CreatedAt := 1; Item_UpdatedAt := 5 |}]>
       ({[ "a.txt" := {| Item_Cid := "c1"; Item_ACL := shared_acl;
                         Item_CreatedAt := 1; Item_UpdatedAt := 1 |} ]}
          : gmap string Item)).
Proof.
  apply (UpsertItemAtPath_keeps_times_ordered shared_bucket
           (set_Items shared_bucket
              (Some (<["a.txt" := {| Item_Cid := "c2"; Item_ACL := shared_acl;
                                     Item_CreatedAt := 1;
                                     Item_UpdatedAt := 5 |}]>
                       {[ "a.txt" := {| Item_Cid := "c1";
                                        Item_ACL := shared_acl;
                                        Item_CreatedAt := 1;
                                        Item_UpdatedAt := 1 |} ]})))
           None
           {[ "a.txt" := {| Item_Cid := "c1"; Item_ACL := shared_acl;
                            Item_CreatedAt := 1; Item_UpdatedAt := 1 |} ]}
           _ "a.txt" {| Cid_String := "c2" |} {| UnixNano := 5 |}).
  - reflexivity.
  - apply map_Forall_singleton. unfold item_times_ordered. simpl. lia.
  - intros x Hx. rewrite lookup_singleton_eq in Hx. injection Hx as <-.
    simpl. lia.
  - vm_compute. reflexivity.
  - reflexivity.
Defined.

(** A clock that runs backwards breaks the order: updating an item created
    at 1 with a time stamp of 0 leaves it updated before it was created. *)
Lemma UpsertItemAtPath_backwards_clock :
  item_after
    (UpsertItemAtPath shared_bucket "a.txt" {| Cid_String := "c2" |}
       {| UnixNano := 0 |}) "a.txt"
  = Some {| Item_Cid := "c2"; Item_ACL := shared_acl;
            Item_CreatedAt := 1; Item_UpdatedAt := 0 |}.
Proof. vm_compute. reflexivity. Qed.

(** ** Normalisation and the other operations *)

(** X5.  A record is left as it is by [ensureNoNulls] exactly when its
    item map and its archive history are both non-nil. *)
Theorem ensureNoNulls_fixed_point (b : Bucket) :
  ensureNoNulls b = b <->
  is_Some (Bucket_Items b) /\
  is_Some (Archives_History (Bucket_Archives b)).
Proof.
  rewrite ensureNoNulls_closed_form.
  destruct b as [k o n v e p items [c hist] ca ua]. simpl. split.
  - intros H. injection H as Hi Hh. split.
    + rewrite <- Hi. by eexists.
    + rewrite <- Hh. by eexists.
  - intros [[m ->] [h ->]]. reflexivity.
Qed.

(** X6.  After normalisation [UpsertItemAtPath] cannot panic: on every
    record, also one decoded with a null item map, it returns without
    error once [ensureNoNulls] has run, and the normalised record holds
    the new item. *)
Theorem UpsertItemAtPath_after_ensureNoNulls
    (b : Bucket) (pth : string) (cid : Cid) (updated : Time) :
  exists (b' : Bucket) (m' : gmap string Item) (x' : Item),
    UpsertItemAtPath (ensureNoNulls b) pth cid updated = Done (b', None) /\
    Bucket_Items b' = Some m' /\
    m' !! pth = Some x' /\
    Item_Cid x' = Cid_String cid /\
    ensureNoNulls b' = b'.
Proof.
  rewrite ensureNoNulls_closed_form.
  set (m := default ∅ (Bucket_Items b)).
  set (nb := set_Archives _ _).
  destruct (UpsertItemAtPath_some nb m pth cid updated eq_refl)
    as (x' & Hb' & Hc & _).
  exists (set_Items nb (Some (<[pth := x']> m))), (<[pth := x']> m), x'.
  split; [done |]. split; [done |]. split; [apply lookup_insert_eq |].
  split; [done |].
  rewrite ensureNoNulls_closed_form. reflexivity.
Qed.

(** ** The validator on save patches *)

Lemma js_get_In {A : Type} (obj : list (string * A)) (k : string) (v : A) :
  NoDup (js_keys obj) -> (js_get obj k = Some v <-> In (k, v) obj).
Proof.
  unfold js_keys. induction obj as [|[k' v'] rest IH]; simpl.
  - intros _. split; [discriminate | intros []].
  - intros Hnd. apply NoDup_cons in Hnd as [Hnot Hnd].
    destruct (String.eqb_spec k' k) as [-> | Hne].
    + split.
      * intros [= ->]. by left.
      * intros [[= ->] | Hin]; [done |].
        exfalso. apply Hnot, list_elem_of_In.
        apply (in_map fst) in Hin. exact Hin.
    + rewrite (IH Hnd). split.
      * intros H. by right.
      * intros [[= Hk _] | Hin]; [by exfalso | done].
Qed.

Lemma js_get_keys {A : Type} (obj : list (string * A)) (k : string) :
  In k (js_keys obj) -> is_Some (js_get obj k).
Proof.
  unfold js_keys. induction obj as [|[k' v'] rest IH]; simpl; [intros [] |].
  destruct (String.eqb_spec k' k) as [-> | Hne]; [by eexists |].
  intros [Hk | Hin]; [by exfalso | by apply IH].
Qed.

Lemma js_get_Permutation {A : Type} (obj obj' : list (string * A))
    (k : string) :
  NoDup (js_keys obj) -> Permutation obj obj' ->
  js_get obj k = js_get obj' k.
Proof.
  intros Hnd Hp.
  assert (js_keys obj ≡ₚ js_keys obj') as Hpk.
  { unfold js_keys. by apply Permutation_map. }
  assert (NoDup (js_keys obj')) as Hnd' by (by rewrite <- Hpk).
  destruct (js_get obj k) as [v|] eqn:E.
  - symmetry. apply (js_get_In _ _ _ Hnd'), (Permutation_in _ Hp).
    by apply (js_get_In _ _ _ Hnd).
  - destruct (js_get obj' k) as [v'|] eqn:E'; [| done].
    apply (js_get_In _ _ _ Hnd'), (Permutation_in _ (Permutation_sym Hp)) in E'.
    apply (js_get_In _ _ _ Hnd) in E'. congruence.
Qed.

Lemma js_get_elem {A : Type} (obj : list (string * A)) (k : string) (v : A) :
  js_get obj k = Some v -> In (k, v) obj.
Proof.
  induction obj as [|[k' v'] rest IH]; simpl; [discriminate |].
  destruct (String.eqb_spec k' k) as [-> | Hne].
  - intros [= ->]. by left.
  - intros H. right. by apply IH.
Qed.

(** The iteration reads the patch through [js_get] alone. *)
Lemma save_iteration_ext (items items' : list (string * option PatchItem))
    (author : string) (instance : option Bucket) (k : string) :
  js_get items k = js_get items' k ->
  save_iteration items author instance k =
  save_iteration items' author instance k.
Proof. intros H. unfold save_iteration. by rewrite H. Qed.

(** The verdict of an iteration on a path the instance does not hold, for
    an entry that is an object. *)
Lemma save_iteration_absent (items : list (string * option PatchItem))
    (author : string) (inst : Bucket) (k : string) (p : PatchItem)
    (m : gmap string Item) :
  js_get items k = Some (Some p) ->
  Bucket_Items inst = Some m ->
  m !! k = None ->
  save_iteration items author (Some inst) k =
    match p_acl p with
    | Some _ =>
        if String.eqb author (Bucket_Owner inst)
        then (if inherited k then Some TypeError else None)
        else Some (Reject "only owner can modify bucket access rules")
    | None =>
        if inherited k then Some TypeError
        else if String.eqb author (Bucket_Owner inst) then None
             else Some (Reject "only owner can create new bucket items")
    end.
Proof.
  intros Hp Hm Hk. unfold save_iteration, items_get. rewrite Hp, Hm, Hk.
  by destruct (p_acl p), (String.eqb author (Bucket_Owner inst)),
       (inherited k).
Qed.

(** A null entry of the patch raises, whoever the author is. *)
Lemma save_iteration_null_entry (items : list (string * option PatchItem))
    (author : string) (instance : option Bucket) (k : string) :
  js_get items k = Some None ->
  save_iteration items author instance k = Some TypeError.
Proof. intros H. unfold save_iteration. by rewrite H. Qed.

(** A path that names an inherited member and is not held by the instance
    never passes: the owner's iteration raises. *)
Lemma save_iteration_inherited_name
    (items : list (string * option PatchItem)) (inst : Bucket) (k : string)
    (p : PatchItem) (m : gmap string Item) :
  js_get items k = Some (Some p) ->
  Bucket_Items inst = Some m ->
  m !! k = None ->
  inherited k = true ->
  save_iteration items (Bucket_Owner inst) (Some inst) k = Some TypeError.
Proof.
  intros Hp Hm Hk Hin.
  rewrite (save_iteration_absent _ _ _ _ _ _ Hp Hm Hk), Hin.
  rewrite String.eqb_refl. by destruct (p_acl p).
Qed.

(** X7.  For a path of the patch whose entry is an object, that the
    instance does not hold yet and that is not the name of a member
    inherited from the object prototype, the iteration completes exactly
    when the author is the owner.  Anybody else is rejected, with "only
    owner can modify bucket access rules" when the entry carries an ACL
    and with "only owner can create new bucket items" otherwise. *)
Theorem save_iteration_new_path
    (items : list (string * option PatchItem)) (author : string)
    (inst : Bucket) (k : string) (p : PatchItem) (m : gmap string Item) :
  js_get items k = Some (Some p) ->
  Bucket_Items inst = Some m ->
  m !! k = None ->
  inherited k = false ->
  (save_iteration items author (Some inst) k = None <->
   author = Bucket_Owner inst) /\
  (author <> Bucket_Owner inst -> is_Some (p_acl p) ->
   save_iteration items author (Some inst) k =
     Some (Reject "only owner can modify bucket access rules")) /\
  (author <> Bucket_Owner inst -> p_acl p = None ->
   save_iteration items author (Some inst) k =
     Some (Reject "only owner can create new bucket items")).
Proof.
  intros Hp Hm Hk Hin.
  rewrite (save_iteration_absent _ _ _ _ _ _ Hp Hm Hk), Hin.
  destruct (String.eqb_spec author (Bucket_Owner inst)) as [Ho | Ho].
  - split; [by destruct (p_acl p) |]. split; intros Hne; by exfalso.
  - split; [split; [by destruct (p_acl p) | done] |].
    split.
    + intros _ [a ->]. reflexivity.
    + intros _ ->. reflexivity.
Qed.

Lemma save_iteration_new_path_witness :
  (save_iteration cid_patch_items "N" (Some owned_bucket) "a.txt" = None
   <-> "N" = "O") /\
  ("N" <> "O" -> is_Some (None : option ACL) ->
   save_iteration cid_patch_items "N" (Some owned_bucket) "a.txt" =
     Some (Reject "only owner can modify bucket access rules")) /\
  ("N" <> "O" -> (None : option ACL) = None ->
   save_iteration cid_patch_items "N" (Some owned_bucket) "a.txt" =
     Some (Reject "only owner can create new bucket items")).
Proof.
  apply (save_iteration_new_path cid_patch_items "N" owned_bucket "a.txt"
           {| p_cid := Some "c2"; p_acl := None;
              p_created_at := None; p_updated_at := Some 7 |} ∅).
  - reflexivity.
  - reflexivity.
  - vm_compute. reflexivity.
  - vm_compute. reflexivity.
Defined.

(** X8.  Whether a save patch is accepted does not depend on the order in
    which [Object.keys] enumerates its items: two patches with the same
    members, keys distinct, are accepted or not together. *)
Theorem ValidatorFunc_save_order_irrelevant
    (owner : option string)
    (items items' : list (string * option PatchItem))
    (author : string) (instance : option Bucket) :
  NoDup (js_keys items) ->
  Permutation items items' ->
  (ValidatorFunc (save_event owner items) author instance = Accept <->
   ValidatorFunc (save_event owner items') author instance = Accept).
Proof.
  intros Hnd Hp.
  assert (js_keys items ≡ₚ js_keys items') as Hpk.
  { unfold js_keys. by apply Permutation_map. }
  unfold ValidatorFunc. simpl. rewrite !save_loop_accepts, <- Hpk.
  apply Forall_iff. intros k.
  by rewrite (save_iteration_ext items items' author instance k
                (js_get_Permutation items items' k Hnd Hp)).
Qed.

Lemma ValidatorFunc_save_order_irrelevant_witness :
  ValidatorFunc
    (save_event None
       [("a.txt", Some {| p_cid := Some "c2"; p_acl := None;
                          p_created_at := None; p_updated_at := Some 7 |});
        ("b.txt", Some {| p_cid := Some "c3"; p_acl := None;
                          p_created_at := Some 7; p_updated_at := Some 7 |})])
    "O" (Some shared_bucket) = Accept <->
  ValidatorFunc
    (save_event None
       [("b.txt", Some {| p_cid := Some "c3"; p_acl := None;
                          p_created_at := Some 7; p_updated_at := Some 7 |});
        ("a.txt", Some {| p_cid := Some "c2"; p_acl := None;
                          p_created_at := None; p_updated_at := Some 7 |})])
    "O" (Some shared_bucket) = Accept.
Proof.
  apply (ValidatorFunc_save_order_irrelevant None
           [("a.txt", Some {| p_cid := Some "c2"; p_acl := None;
                              p_created_at := None;
                              p_updated_at := Some 7 |});
            ("b.txt", Some {| p_cid := Some "c3"; p_acl := None;
                              p_created_at := Some 7;
                              p_updated_at := Some 7 |})]
           [("b.txt", Some {| p_cid := Some "c3"; p_acl := None;
                              p_created_at := Some 7;
                              p_updated_at := Some 7 |});
            ("a.txt", Some {| p_cid := Some "c2"; p_acl := None;
                              p_created_at := None;
                              p_updated_at := Some 7 |})]
           "O" (Some shared_bucket)).
  - simpl. apply NoDup_cons. split; [| apply NoDup_singleton].
    intros Hin. apply list_elem_of_In in Hin. simpl in Hin.
    destruct Hin as [Hin | []]. discriminate Hin.
  - apply perm_swap.
Defined.

(** X9.  The script has no default case: an event whose type is none of
    "create", "save" and "delete" is accepted for every author, whatever
    the patch and the instance are. *)
Theorem ValidatorFunc_other_type_accepted
    (event : Event) (author : string) (instance : option Bucket) :
  patch_type (event_patch event) <> "create" ->
  patch_type (event_patch event) <> "save" ->
  patch_type (event_patch event) <> "delete" ->
  ValidatorFunc event author instance = Accept.
Proof.
  intros Hc Hs Hd. unfold ValidatorFunc.
  by rewrite (eqb_false_of_ne _ _ Hc), (eqb_false_of_ne _ _ Hs),
       (eqb_false_of_ne _ _ Hd).
Qed.

Lemma ValidatorFunc_other_type_accepted_witness :
  ValidatorFunc
    {| event_patch :=
         {| patch_type := "update"; patch_json_patch := None;
            patch_owner := None |} |}
    "N" (Some shared_bucket) = Accept.
Proof.
  apply (ValidatorFunc_other_type_accepted
           {| event_patch :=
                {| patch_type := "update"; patch_json_patch := None;
                   patch_owner := None |} |}
           "N" (Some shared_bucket)).
  - simpl. discriminate.
  - simpl. discriminate.
  - simpl. discriminate.
Defined.

(** X10.  On an instance without items, as [New] creates it, a save patch
    that is accepted carries no item or comes from the owner.  The owner's
    patch is accepted when every entry is an object under a key that is
    not the name of a member inherited from the object prototype.  A save
    patch without items is accepted on every instance and for every
    author, whatever else it changes. *)
Theorem ValidatorFunc_save_on_empty_bucket
    (owner : option string) (items : list (string * option PatchItem))
    (author : string) (inst : Bucket) :
  Bucket_Items inst = Some ∅ ->
  (ValidatorFunc (save_event owner items) author (Some inst) = Accept ->
   items = [] \/ author = Bucket_Owner inst) /\
  (Forall (fun kp => is_Some (snd kp) /\ inherited (fst kp) = false) items ->
   author = Bucket_Owner inst ->
   ValidatorFunc (save_event owner items) author (Some inst) = Accept) /\
  (forall instance : option Bucket,
     ValidatorFunc (save_event owner []) author instance = Accept).
Proof.
  intros Hm. split; [| split; [| reflexivity]].
  - unfold ValidatorFunc. simpl. rewrite save_loop_accepts.
    intros Hall. destruct items as [|[k entry] rest]; [by left |]. right.
    apply Forall_cons in Hall as [Hk _]. revert Hk.
    unfold save_iteration, items_get. simpl.
    rewrite String.eqb_refl, Hm, lookup_empty.
    destruct entry as [p|]; [| discriminate].
    destruct (String.eqb_spec author (Bucket_Owner inst)) as [Ho | Ho];
      [done |].
    by destruct (p_acl p), (inherited k).
  - intros Hwf ->. unfold ValidatorFunc. simpl. apply save_loop_accepts.
    apply Forall_forall. intros k Hk. apply list_elem_of_In in Hk.
    destruct (js_get_keys items k Hk) as [entry He].
    pose proof (js_get_elem _ _ _ He) as Hin.
    apply list_elem_of_In in Hin.
    rewrite Forall_forall in Hwf.
    destruct (Hwf _ Hin) as [[p Hp] Hinh]. simpl in Hp, Hinh. subst entry.
    rewrite (save_iteration_absent items (Bucket_Owner inst) inst k p ∅ He Hm
               (lookup_empty k)), Hinh, String.eqb_refl.
    by destruct (p_acl p).
Qed.

Lemma ValidatorFunc_save_on_empty_bucket_witness :
  (ValidatorFunc (save_event None cid_patch_items) "O" (Some owned_bucket)
     = Accept ->
   cid_patch_items = [] \/ "O" = "O") /\
  (Forall (fun kp => is_Some (snd kp) /\ inherited (fst kp) = false)
     cid_patch_items ->
   "O" = "O" ->
   ValidatorFunc (save_event None cid_patch_items) "O" (Some owned_bucket)
     = Accept) /\
  (forall instance : option Bucket,
     ValidatorFunc (save_event None []) "O" instance = Accept).
Proof.
  apply (ValidatorFunc_save_on_empty_bucket None cid_patch_items "O"
           owned_bucket).
  reflexivity.
Defined.

(** X11.  An item created by [UpsertItemAtPath] can afterwards be saved by
    the owner alone: for a patch entry that is an object without ACL for
    the new path, the iteration completes exactly when the author is the
    owner of the bucket.  When the bucket has no owner the created item
    has a null Write set and the script raises for every author, and it
    raises for every author when the patch entry is null. *)
Theorem save_after_UpsertItemAtPath
    (b : Bucket) (m : gmap string Item) (pth : string) (cid : Cid)
    (updated : Time) (items : list (string * option PatchItem))
    (entry : option PatchItem) (author : string) :
  Bucket_Items b = Some m ->
  m !! pth = None ->
  js_get items pth = Some entry ->
  exists b' : Bucket,
    UpsertItemAtPath b pth cid updated = Done (b', None) /\
    (entry = None ->
     save_iteration items author (Some b') pth = Some TypeError) /\
    (forall p : PatchItem,
       entry = Some p -> p_acl p = None ->
       (Bucket_Owner b <> "" ->
        (save_iteration items author (Some b') pth = None <->
         author = Bucket_Owner b)) /\
       (Bucket_Owner b <> "" -> author <> Bucket_Owner b ->
        save_iteration items author (Some b') pth =
          Some (Reject "author does not have write access")) /\
       (Bucket_Owner b = "" ->
        save_iteration items author (Some b') pth = Some TypeError)).
Proof.
  intros Hm Hx Hp. eexists.
  split; [by apply (UpsertItemAtPath_absent b m pth) |].
  split; [intros ->; by apply save_iteration_null_entry |].
  intros p -> Hacl.
  unfold save_iteration, items_get. rewrite Hp, Hacl. simpl.
  rewrite lookup_insert_eq. unfold fresh_Item. simpl.
  destruct (String.eqb_spec (Bucket_Owner b) "") as [Hempty | Hne]; simpl.
  - split; [done |]. split; [done |]. done.
  - destruct (String.eqb_spec (Bucket_Owner b) author) as [He | Hd]; simpl.
    + split; [done |]. split; [| done]. intros _ Hd. by exfalso.
    + split; [| split; [done | done]].
      intros _. split; [done | intros ->; by exfalso].
Qed.

Lemma save_after_UpsertItemAtPath_witness :
  exists b' : Bucket,
    UpsertItemAtPath owned_bucket "a.txt" {| Cid_String := "c1" |}
      {| UnixNano := 2 |} = Done (b', None) /\
    save_iteration cid_patch_items "O" (Some b') "a.txt" = None /\
    save_iteration cid_patch_items "N" (Some b') "a.txt" =
      Some (Reject "author does not have write access").
Proof.
  destruct (save_after_UpsertItemAtPath owned_bucket ∅ "a.txt"
              {| Cid_String := "c1" |} {| UnixNano := 2 |} cid_patch_items
              (Some {| p_cid := Some "c2"; p_acl := None;
                       p_created_at := None; p_updated_at := Some 7 |}) "N")
    as (b' & Hu & _ & Hobj).
  - reflexivity.
  - vm_compute. reflexivity.
  - reflexivity.
  - exists b'. split; [exact Hu |].
    destruct (Hobj _ eq_refl eq_refl) as (_ & Hrej & _).
    split.
    + assert (b' = set_Items owned_bucket
                     (Some (<["a.txt" :=
                               fresh_Item "O" {| Cid_String := "c1" |}
                                 {| UnixNano := 2 |}]> ∅))) as ->.
      { rewrite (UpsertItemAtPath_absent owned_bucket ∅ "a.txt"
                   {| Cid_String := "c1" |} {| UnixNano := 2 |}
                   eq_refl (lookup_empty _)) in Hu.
        by injection Hu as <-. }
      vm_compute. reflexivity.
    + apply Hrej; discriminate.
Defined.

(** ** Bucket creation *)

(** [New_create] by the answers of the store and of the provisioning. *)
Lemma New_create_unfold {St : Type} (b : Buckets St) (now : Z)
    (dbID key : string) (pth : IpfsPath) (owner : option PubKey)
    (args : BucketOptions) (encKey : string) (st : St) :
  New_create b now dbID key pth owner args encKey st =
    match Collection_Create (Buckets_Collection b) dbID
            (new_Bucket key owner (BucketOptions_Name args) encKey pth now)
            (BucketOptions_Token args) st with
    | (st1, (id, Some e)) =>
        (st1, Done (None, Some (wrap "creating bucket in thread: " e)))
    | (st1, (id, None)) =>
        match createFFSInstance b key st1 with
        | (st2, Done (Some e)) =>
            (st2, Done (None,
                        Some (wrap "creating FFS instance for bucket: " e)))
        | (st2, Done None) =>
            (st2, Done (Some (new_Bucket id owner (BucketOptions_Name args)
                                encKey pth now), None))
        | (st2, Panic msg) => (st2, Panic msg)
        end
    end.
Proof.
  unfold New_create, new_Bucket, bind, call, ret.
  destruct owner as [o|]; simpl;
    destruct (Collection_Create _ _ _ _ _) as [st1 [id [e|]]]; try done;
    by destruct (createFFSInstance b key st1) as [st2 [[e|]|msg]].
Qed.

(** [New] ends at the token check, or continues with [New_create]. *)
Lemma New_outcomes {St : Type}
    (base64_EncodeToString : list Byte.byte -> string) (b : Buckets St)
    (now : Z) (dbID key : string) (pth : IpfsPath) (owner : option PubKey)
    (opts : list BucketOption) (st : St) :
  let args := collect_options opts in
  New base64_EncodeToString b now dbID key pth owner opts st =
    New_create b now dbID key pth owner args
      (encoded_key base64_EncodeToString args) st \/
  (exists e : GoError,
     New base64_EncodeToString b now dbID key pth owner opts st =
       (st, Done (None, Some e)) /\
     (snd (Token_PubKey (BucketOptions_Token args)) = Some e \/
      e = Errorf "creating bucket: token owner mismatch")) \/
  (exists msg : string,
     New base64_EncodeToString b now dbID key pth owner opts st =
       (st, Panic msg)).
Proof.
  intros args. unfold New. fold (collect_options opts). fold args.
  fold (encoded_key base64_EncodeToString args).
  destruct (Token_Defined (BucketOptions_Token args)); [| by left].
  destruct (Token_PubKey (BucketOptions_Token args)) as [[t|] [e|]]; simpl.
  - right. left. exists e. by split; [| left].
  - destruct owner as [o|]; [| right; right; by eexists].
    destruct (negb (String.eqb (PubKey_String o) (PubKey_String t)));
      [| by left].
    right. left. eexists. by split; [| right].
  - right. left. exists e. by split; [| left].
  - by left.
Qed.

(** What a returned bucket tells about the run of [New]. *)
Lemma New_success_inv {St : Type}
    (base64_EncodeToString : list Byte.byte -> string) (b : Buckets St)
    (now : Z) (dbID key : string) (pth : IpfsPath) (owner : option PubKey)
    (opts : list BucketOption) (st st' : St) (bucket : Bucket)
    (err : option GoError) :
  New base64_EncodeToString b now dbID key pth owner opts st =
    (st', Done (Some bucket, err)) ->
  let args := collect_options opts in
  let encKey := encoded_key base64_EncodeToString args in
  err = None /\
  exists (id : string) (st1 : St),
    Collection_Create (Buckets_Collection b) dbID
      (new_Bucket key owner (BucketOptions_Name args) encKey pth now)
      (BucketOptions_Token args) st = (st1, (id, None)) /\
    createFFSInstance b key st1 = (st', Done None) /\
    bucket = new_Bucket id owner (BucketOptions_Name args) encKey pth now.
Proof.
  intros H args encKey.
  destruct (New_outcomes base64_EncodeToString b now dbID key pth owner
              opts st) as [Hc | [(e & He & _) | (msg & Hm)]];
    [| rewrite He in H; discriminate H | rewrite Hm in H; discriminate H].
  rewrite Hc, New_create_unfold in H. fold args in H. fold encKey in H.
  destruct (Collection_Create _ _ _ _ _) as [st1 [id [e|]]] eqn:Hcr;
    [discriminate H |].
  destruct (createFFSInstance b key st1) as [st2 [[e|]|msg]] eqn:Hffs;
    [discriminate H | | discriminate H].
  injection H as <- <- <-.
  split; [done |]. by exists id, st1.
Qed.

(** X12.  When [New] returns a bucket, the error is nil and the bucket is
    the record that was created in the thread, under the id the store
    answered: schema version 1, the name and the encoded key of the
    options, the owner's key as text (empty without owner), an empty
    non-nil item map, archives without nil containers, and both time
    stamps at the reading of the clock.  [ensureNoNulls] leaves it as it
    is. *)
Theorem New_returns_created_record {St : Type}
    (base64_EncodeToString : list Byte.byte -> string) (b : Buckets St)
    (now : Z) (dbID key : string) (pth : IpfsPath) (owner : option PubKey)
    (opts : list BucketOption) (st st' : St) (bucket : Bucket)
    (err : option GoError) :
  New base64_EncodeToString b now dbID key pth owner opts st =
    (st', Done (Some bucket, err)) ->
  let args := collect_options opts in
  let submitted :=
    new_Bucket key owner (BucketOptions_Name args)
      (encoded_key base64_EncodeToString args) pth now in
  err = None /\
  (exists (id : string) (st1 : St),
     Collection_Create (Buckets_Collection b) dbID submitted
       (BucketOptions_Token args) st = (st1, (id, None)) /\
     createFFSInstance b key st1 = (st', Done None) /\
     Bucket_Key bucket = id) /\
  Bucket_Owner bucket = match owner with
                        | Some o => PubKey_String o
                        | None => ""
                        end /\
  Bucket_Name bucket = BucketOptions_Name args /\
  Bucket_Version bucket = 1 /\
  Bucket_EncKey bucket = encoded_key base64_EncodeToString args /\
  Bucket_Path bucket = IpfsPath_String pth /\
  Bucket_Items bucket = Some ∅ /\
  Bucket_Archives bucket =
    {| Archives_Current := {| Archive_Cid := ""; Archive_Deals := Some [] |};
       Archives_History := Some [] |} /\
  Bucket_CreatedAt bucket = now /\
  Bucket_UpdatedAt bucket = now /\
  ensureNoNulls bucket = bucket.
Proof.
  intros H args submitted.
  destruct (New_success_inv _ _ _ _ _ _ _ _ _ _ _ _ H)
    as (Herr & id & st1 & Hcr & Hffs & ->).
  split; [done |]. split; [by exists id, st1 |].
  repeat (split; [reflexivity |]). reflexivity.
Qed.

Lemma New_returns_created_record_witness :
  let b := demo_Buckets None (inl running_record) in
  let args := collect_options [WithNewBucketName "photos"] in
  let submitted :=
    new_Bucket "k" (Some {| PubKey_String := "O" |})
      (BucketOptions_Name args) (encoded_key (fun _ => "") args)
      {| IpfsPath_String := "/ipfs/r" |} 10 in
  let bucket :=
    new_Bucket "id-1" (Some {| PubKey_String := "O" |}) "photos" ""
      {| IpfsPath_String := "/ipfs/r" |} 10 in
  New (fun _ => "") b 10 "db" "k" {| IpfsPath_String := "/ipfs/r" |}
    (Some {| PubKey_String := "O" |}) [WithNewBucketName "photos"] []
    = (["threads.create"], Done (Some bucket, None)) /\
  (exists (id : string) (st1 : list string),
     Collection_Create demo_Collection "db" submitted
       (BucketOptions_Token args) [] = (st1, (id, None)) /\
     createFFSInstance b "k" st1 = (["threads.create"], Done None) /\
     Bucket_Key bucket = id) /\
  Bucket_Items bucket = Some ∅ /\
  ensureNoNulls bucket = bucket.
Proof.
  intros b args submitted bucket.
  assert (New (fun _ => "") b 10 "db" "k" {| IpfsPath_String := "/ipfs/r" |}
            (Some {| PubKey_String := "O" |}) [WithNewBucketName "photos"] []
          = (["threads.create"], Done (Some bucket, None))) as Hnew
    by reflexivity.
  split; [exact Hnew |].
  destruct (New_returns_created_record _ _ _ _ _ _ _ _ _ _ _ _ Hnew)
    as (_ & Hcreate & _ & _ & _ & _ & _ & Hitems & _ & _ & _ & Hfix).
  split; [exact Hcreate |]. split; [exact Hitems | exact Hfix].
Defined.

(** X13.  When [New] returns, exactly one of the bucket and the error is
    nil, and an error is the error of the token's [PubKey()], the
    "token owner mismatch" error, or the error of the store or of the
    provisioning under the prefix of its step. *)
Theorem New_bucket_or_error {St : Type}
    (base64_EncodeToString : list Byte.byte -> string) (b : Buckets St)
    (now : Z) (dbID key : string) (pth : IpfsPath) (owner : option PubKey)
    (opts : list BucketOption) (st st' : St) (bucket : option Bucket)
    (err : option GoError) :
  New base64_EncodeToString b now dbID key pth owner opts st =
    (st', Done (bucket, err)) ->
  (is_Some bucket /\ err = None) \/
  (bucket = None /\
   exists e : GoError,
     err = Some e /\
     (snd (Token_PubKey (BucketOptions_Token (collect_options opts))) = Some e
      \/ e = Errorf "creating bucket: token owner mismatch"
      \/ (exists cause : GoError,
            e = Errorf ("creating bucket in thread: " +:+ Error cause))
      \/ (exists cause : GoError,
            e = Errorf ("creating FFS instance for bucket: "
                        +:+ Error cause)))).
Proof.
  intros H.
  destruct (New_outcomes base64_EncodeToString b now dbID key pth owner
              opts st) as [Hc | [(e & He & Hprov) | (msg & Hm)]].
  - rewrite Hc, New_create_unfold in H.
    destruct (Collection_Create _ _ _ _ _) as [st1 [id [e|]]].
    + injection H as _ <- <-. right. split; [done |].
      exists (wrap "creating bucket in thread: " e). split; [done |].
      right. right. left. by exists e.
    + destruct (createFFSInstance b key st1) as [st2 [[e|]|msg]];
        [| | discriminate H].
      * injection H as _ <- <-. right. split; [done |].
        exists (wrap "creating FFS instance for bucket: " e).
        split; [done |]. right. right. right. by exists e.
      * injection H as _ <- <-. left. split; [by eexists | done].
  - rewrite He in H. injection H as _ <- <-. right. split; [done |].
    exists e. split; [done |]. destruct Hprov as [Hp | ->]; [by left |].
    right. by left.
  - rewrite Hm in H. discriminate H.
Qed.

Lemma New_bucket_or_error_witness :
  (is_Some (None : option Bucket) /\
   Some (Errorf "creating bucket: token owner mismatch") = None) \/
  ((None : option Bucket) = None /\
   exists e : GoError,
     Some (Errorf "creating bucket: token owner mismatch") = Some e /\
     (snd (Token_PubKey
             (BucketOptions_Token
                (collect_options [WithNewBucketToken token_of_O]))) = Some e
      \/ e = Errorf "creating bucket: token owner mismatch"
      \/ (exists cause : GoError,
            e = Errorf ("creating bucket in thread: " +:+ Error cause))
      \/ (exists cause : GoError,
            e = Errorf ("creating FFS instance for bucket: "
                        +:+ Error cause)))).
Proof.
  apply (New_bucket_or_error (fun _ => "")
           (demo_Buckets None (inl running_record)) 10 "db" "k"
           {| IpfsPath_String := "/ipfs/r" |}
           (Some {| PubKey_String := "N" |})
           [WithNewBucketToken token_of_O] [] []).
  reflexivity.
Defined.

(** X14.  Without a token, [New] first creates the record in the thread.
    If that fails, the error is returned under "creating bucket in
    thread: " and no provisioning call is made.  If it succeeds and the
    provisioning fails, [New] returns no bucket and the error under
    "creating FFS instance for bucket: ", in the state that follows the
    creation and the failed provisioning: the created record is not
    removed.  If it succeeds and no Powergate client is configured, the
    record is returned and the store call is the only one made. *)
Theorem New_store_then_provisioning {St : Type}
    (base64_EncodeToString : list Byte.byte -> string) (b : Buckets St)
    (now : Z) (dbID key : string) (pth : IpfsPath) (owner : option PubKey)
    (opts : list BucketOption) (st st1 : St) (id : string)
    (cerr : option GoError) :
  let args := collect_options opts in
  let name := BucketOptions_Name args in
  let encKey := encoded_key base64_EncodeToString args in
  let r := New base64_EncodeToString b now dbID key pth owner opts st in
  Token_Defined (BucketOptions_Token args) = false ->
  Collection_Create (Buckets_Collection b) dbID
    (new_Bucket key owner name encKey pth now) (BucketOptions_Token args) st
    = (st1, (id, cerr)) ->
  (forall e : GoError,
     cerr = Some e ->
     r = (st1, Done (None,
            Some (Errorf ("creating bucket in thread: " +:+ Error e))))) /\
  (cerr = None ->
   forall (st2 : St) (e : GoError),
     createFFSInstance b key st1 = (st2, Done (Some e)) ->
     r = (st2, Done (None,
            Some (Errorf ("creating FFS instance for bucket: "
                          +:+ Error e))))) /\
  (cerr = None -> Buckets_pgClient b = None ->
   r = (st1, Done (Some (new_Bucket id owner name encKey pth now), None))).
Proof.
  intros args name encKey r Htok Hcr. subst r.
  assert (New base64_EncodeToString b now dbID key pth owner opts st =
          New_create b now dbID key pth owner args encKey st) as ->.
  { unfold New. fold (collect_options opts). fold args. by rewrite Htok. }
  rewrite New_create_unfold. fold name. rewrite Hcr.
  split; [by intros e -> |]. split.
  - intros -> st2 e Hffs. by rewrite Hffs.
  - intros -> Hpg. by rewrite (createFFSInstance_disabled b key st1 Hpg).
Qed.

Lemma New_store_then_provisioning_witness :
  let b := demo_Buckets None (inl running_record) in
  let pth := {| IpfsPath_String := "/ipfs/r" |} in
  let r := New (fun _ => "") b 10 "db" "k" pth None [] [] in
  (forall e : GoError,
     (None : option GoError) = Some e ->
     r = (["threads.create"], Done (None,
            Some (Errorf ("creating bucket in thread: " +:+ Error e))))) /\
  ((None : option GoError) = None ->
   forall (st2 : list string) (e : GoError),
     createFFSInstance b "k" ["threads.create"] = (st2, Done (Some e)) ->
     r = (st2, Done (None,
            Some (Errorf ("creating FFS instance for bucket: "
                          +:+ Error e))))) /\
  ((None : option GoError) = None -> Buckets_pgClient b = None ->
   r = (["threads.create"],
        Done (Some (new_Bucket "id-1" None "" "" pth 10), None))).
Proof.
  apply (New_store_then_provisioning (fun _ => "")
           (demo_Buckets None (inl running_record)) 10 "db" "k"
           {| IpfsPath_String := "/ipfs/r" |} None [] [] ["threads.create"]
           "id-1" None).
  - reflexivity.
  - reflexivity.
Defined.

(** ** Provisioning, step by step *)

(** X15.  When every call succeeds and the instance reports a balance,
    [createFFSInstance] returns nil after four calls in this order:
    [FFS.Create], [FFS.Info] under the new token, the record of the bucket
    key, the token and the address of the first balance in the FFS
    instance collection, and [FFS.SetDefaultConfig] under the new token.
    The pushed configuration is the configured one with that address as
    cold storage address and nothing else changed. *)
Theorem createFFSInstance_success {St : Type} (b : Buckets St)
    (pg : PowClient St) (bucketKey id token : string) (i : InstanceInfo)
    (b0 : BalanceInfo) (rest : list BalanceInfo) (st st1 st2 st3 st4 : St) :
  Buckets_pgClient b = Some pg ->
  FFS_Create pg st = (st1, (id, token, None)) ->
  FFS_Info pg token st1 = (st2, (i, None)) ->
  InstanceInfo_Balances i = Some (b0 :: rest) ->
  FFSInstances_Create (Buckets_ffsCol b) bucketKey token
    (BalanceInfo_Addr b0) st2 = (st3, None) ->
  FFS_SetDefaultConfig pg token (pushed_config b (BalanceInfo_Addr b0)) st3
    = (st4, None) ->
  createFFSInstance b bucketKey st = (st4, Done None) /\
  let pushed := pushed_config b (BalanceInfo_Addr b0) in
  let configured := Buckets_buckCidConfig b in
  FilConfig_Addr (ColdConfig_Filecoin (DefaultConfig_Cold pushed)) =
    BalanceInfo_Addr b0 /\
  FilConfig_RepFactor (ColdConfig_Filecoin (DefaultConfig_Cold pushed)) =
    FilConfig_RepFactor (ColdConfig_Filecoin (DefaultConfig_Cold configured))
  /\
  FilConfig_DealMinDuration (ColdConfig_Filecoin (DefaultConfig_Cold pushed))
    = FilConfig_DealMinDuration
        (ColdConfig_Filecoin (DefaultConfig_Cold configured)) /\
  ColdConfig_Enabled (DefaultConfig_Cold pushed) =
    ColdConfig_Enabled (DefaultConfig_Cold configured) /\
  DefaultConfig_Hot pushed = DefaultConfig_Hot configured /\
  DefaultConfig_Repairable pushed = DefaultConfig_Repairable configured.
Proof.
  intros Hpg Hc Hi Hb Hs Hp. split; [| by repeat split].
  unfold createFFSInstance, bind, call, ret.
  rewrite Hpg, Hc, Hi, Hb. simpl. rewrite Hs.
  unfold pushed_config in Hp. by rewrite Hp.
Qed.

Lemma createFFSInstance_success_witness :
  let b :=
    demo_Buckets
      (Some (demo_PowClient (Some [ {| BalanceInfo_Addr := "t3w" |} ])))
      (inl running_record) in
  createFFSInstance b "k" [] =
    (["ffs.create"; "ffs.info"; "ffsinstances.create";
      "ffs.setDefaultConfig"], Done None) /\
  let pushed := pushed_config b "t3w" in
  let configured := Buckets_buckCidConfig b in
  FilConfig_Addr (ColdConfig_Filecoin (DefaultConfig_Cold pushed)) = "t3w" /\
  FilConfig_RepFactor (ColdConfig_Filecoin (DefaultConfig_Cold pushed)) =
    FilConfig_RepFactor (ColdConfig_Filecoin (DefaultConfig_Cold configured))
  /\
  FilConfig_DealMinDuration (ColdConfig_Filecoin (DefaultConfig_Cold pushed))
    = FilConfig_DealMinDuration
        (ColdConfig_Filecoin (DefaultConfig_Cold configured)) /\
  ColdConfig_Enabled (DefaultConfig_Cold pushed) =
    ColdConfig_Enabled (DefaultConfig_Cold configured) /\
  DefaultConfig_Hot pushed = DefaultConfig_Hot configured /\
  DefaultConfig_Repairable pushed = DefaultConfig_Repairable configured.
Proof.
  apply (createFFSInstance_success
           (demo_Buckets
              (Some (demo_PowClient (Some [ {| BalanceInfo_Addr := "t3w" |} ])))
              (inl running_record))
           (demo_PowClient (Some [ {| BalanceInfo_Addr := "t3w" |} ]))
           "k" "ffs-1" "tok-1"
           {| InstanceInfo_Balances := Some [ {| BalanceInfo_Addr := "t3w" |} ] |}
           {| BalanceInfo_Addr := "t3w" |} []
           [] ["ffs.create"] ["ffs.create"; "ffs.info"]
           ["ffs.create"; "ffs.info"; "ffsinstances.create"]
           ["ffs.create"; "ffs.info"; "ffsinstances.create";
            "ffs.setDefaultConfig"]).
  - reflexivity.
  - reflexivity.
  - reflexivity.
  - reflexivity.
  - reflexivity.
  - reflexivity.
Defined.

(** X16.  With a Powergate client, [createFFSInstance] stops at the first
    call that fails and returns its error under the prefix of the step;
    no later call is made.  An error of [FFS.Info] is returned before the
    balance list is read. *)
Theorem createFFSInstance_stops_at_first_error {St : Type} (b : Buckets St)
    (pg : PowClient St) (bucketKey : string) (st : St) :
  Buckets_pgClient b = Some pg ->
  (forall (st1 : St) (id token : string) (e : GoError),
     FFS_Create pg st = (st1, (id, token, Some e)) ->
     createFFSInstance b bucketKey st =
       (st1, Done (Some (Errorf ("creating FFS instance: " +:+ Error e)))))
  /\
  (forall (st1 st2 : St) (id token : string) (i : InstanceInfo)
          (e : GoError),
     FFS_Create pg st = (st1, (id, token, None)) ->
     FFS_Info pg token st1 = (st2, (i, Some e)) ->
     createFFSInstance b bucketKey st =
       (st2, Done (Some (Errorf
          ("getting information about created ffs instance: "
           +:+ Error e))))) /\
  (forall (st1 st2 st3 : St) (id token : string) (i : InstanceInfo)
          (b0 : BalanceInfo) (rest : list BalanceInfo) (e : GoError),
     FFS_Create pg st = (st1, (id, token, None)) ->
     FFS_Info pg token st1 = (st2, (i, None)) ->
     InstanceInfo_Balances i = Some (b0 :: rest) ->
     FFSInstances_Create (Buckets_ffsCol b) bucketKey token
       (BalanceInfo_Addr b0) st2 = (st3, Some e) ->
     createFFSInstance b bucketKey st =
       (st3, Done (Some (Errorf ("saving FFS instances data: "
                                 +:+ Error e))))) /\
  (forall (st1 st2 st3 st4 : St) (id token : string) (i : InstanceInfo)
          (b0 : BalanceInfo) (rest : list BalanceInfo) (e : GoError),
     FFS_Create pg st = (st1, (id, token, None)) ->
     FFS_Info pg token st1 = (st2, (i, None)) ->
     InstanceInfo_Balances i = Some (b0 :: rest) ->
     FFSInstances_Create (Buckets_ffsCol b) bucketKey token
       (BalanceInfo_Addr b0) st2 = (st3, None) ->
     FFS_SetDefaultConfig pg token (pushed_config b (BalanceInfo_Addr b0)) st3
       = (st4, Some e) ->
     createFFSInstance b bucketKey st =
       (st4, Done (Some (Errorf ("setting default bucket FFS cidconfig: "
                                 +:+ Error e))))).
Proof.
  intros Hpg. unfold createFFSInstance, bind, call, ret. rewrite Hpg.
  split; [| split; [| split]].
  - intros st1 id token e Hc. by rewrite Hc.
  - intros st1 st2 id token i e Hc Hi. by rewrite Hc, Hi.
  - intros st1 st2 st3 id token i b0 rest e Hc Hi Hb Hs.
    rewrite Hc, Hi, Hb. simpl. by rewrite Hs.
  - intros st1 st2 st3 st4 id token i b0 rest e Hc Hi Hb Hs Hp.
    rewrite Hc, Hi, Hb. simpl. rewrite Hs.
    unfold pushed_config in Hp. by rewrite Hp.
Qed.

Lemma createFFSInstance_stops_at_first_error_witness :
  createFFSInstance
    (demo_Buckets (Some info_failing_PowClient) (inl running_record)) "k" []
  = (["ffs.create"; "ffs.info"],
     Done (Some (Errorf
       "getting information about created ffs instance: timeout"))).
Proof.
  destruct (createFFSInstance_stops_at_first_error
              (demo_Buckets (Some info_failing_PowClient)
                 (inl running_record))
              info_failing_PowClient "k" [] eq_refl) as (_ & Hinfo & _).
  exact (Hinfo ["ffs.create"] ["ffs.create"; "ffs.info"] "ffs-1" "tok-1"
           {| InstanceInfo_Balances := None |} (Errorf "timeout")
           eq_refl eq_refl).
Defined.

(** ** The encryption key *)

(** X17.  Provided decoding undoes encoding, the key given to [New] is
    the key [GetEncKey] reads back from the returned bucket, unless its
    encoding is the empty string; in that case, and when no key was given,
    [GetEncKey] returns nil. *)
Theorem GetEncKey_of_New {St : Type}
    (base64_EncodeToString : list Byte.byte -> string)
    (base64_DecodeString : Base64Decoder) (b : Buckets St)
    (now : Z) (dbID key : string) (pth : IpfsPath) (owner : option PubKey)
    (opts : list BucketOption) (st st' : St) (bucket : Bucket)
    (err : option GoError) :
  (forall k : list Byte.byte,
     base64_DecodeString (base64_EncodeToString k) = (Some k, None)) ->
  New base64_EncodeToString b now dbID key pth owner opts st =
    (st', Done (Some bucket, err)) ->
  (BucketOptions_Key (collect_options opts) = None ->
   GetEncKey base64_DecodeString bucket = None) /\
  (forall k : list Byte.byte,
     BucketOptions_Key (collect_options opts) = Some k ->
     (base64_EncodeToString k <> "" ->
      GetEncKey base64_DecodeString bucket = Some k) /\
     (base64_EncodeToString k = "" ->
      GetEncKey base64_DecodeString bucket = None)).
Proof.
  intros Hcodec H.
  destruct (New_success_inv _ _ _ _ _ _ _ _ _ _ _ _ H)
    as (_ & id & st1 & _ & _ & ->).
  unfold GetEncKey, encoded_key. simpl. split.
  - by intros ->.
  - intros k ->. split.
    + intros Hne. by rewrite (eqb_false_of_ne _ _ Hne), Hcodec.
    + by intros ->.
Qed.

Lemma GetEncKey_of_New_witness :
  let opts := [WithNewBucketKey (Some [Byte.x6b; Byte.x31])] in
  let bucket :=
    new_Bucket "id-1" None "" "k1" {| IpfsPath_String := "/ipfs/r" |} 10 in
  (BucketOptions_Key (collect_options opts) = None ->
   GetEncKey demo_decode bucket = None) /\
  (forall k : list Byte.byte,
     BucketOptions_Key (collect_options opts) = Some k ->
     (demo_encode k <> "" -> GetEncKey demo_decode bucket = Some k) /\
     (demo_encode k = "" -> GetEncKey demo_decode bucket = None)).
Proof.
  apply (GetEncKey_of_New demo_encode demo_decode
           (demo_Buckets None (inl running_record)) 10 "db" "k"
           {| IpfsPath_String := "/ipfs/r" |} None
           [WithNewBucketKey (Some [Byte.x6b; Byte.x31])] []
           ["threads.create"]
           (new_Bucket "id-1" None "" "k1"
              {| IpfsPath_String := "/ipfs/r" |} 10)
           None).
  - intros k. unfold demo_decode, demo_encode.
    by rewrite list_byte_of_string_of_list_byte.
  - reflexivity.
Defined.

(** ** ArchiveStatus and ArchiveWatch *)

(** X18.  [ArchiveStatus] does not panic and reads the instance record
    once.  Every error comes with the status Failed and an empty message;
    a result without error is the recorded status and failure message of
    a record that has a job id and is not flagged aborted. *)
Theorem ArchiveStatus_result_shape {St : Type} (Failed : Z) (b : Buckets St)
    (key : string) (st : St) :
  let got := FFSInstances_Get (Buckets_ffsCol b) key st in
  exists (status : Z) (msg : string) (err : option GoError),
    ArchiveStatus Failed b key st = (fst got, Done (status, msg, err)) /\
    (is_Some err -> status = Failed /\ msg = "") /\
    (err = None ->
     exists ffsi : FFSInstance,
       snd got = inl ffsi /\
       FFSArchive_JobID (FFSArchives_Current (FFSInstance_Archives ffsi))
         <> "" /\
       FFSArchive_Aborted (FFSArchives_Current (FFSInstance_Archives ffsi))
         = false /\
       status =
         FFSArchive_JobStatus
           (FFSArchives_Current (FFSInstance_Archives ffsi)) /\
       msg =
         FFSArchive_FailureMsg
           (FFSArchives_Current (FFSInstance_Archives ffsi))).
Proof.
  intros got. subst got. unfold ArchiveStatus, bind, call, ret.
  destruct (FFSInstances_Get _ _ _) as [st1 [ffsi | e]]; simpl.
  - destruct (String.eqb_spec
                (FFSArchive_JobID
                   (FFSArchives_Current (FFSInstance_Archives ffsi))) "")
      as [Hj | Hj].
    + eexists _, _, _. split; [reflexivity |]. split; [done | done].
    + destruct (FFSArchive_Aborted
                  (FFSArchives_Current (FFSInstance_Archives ffsi))) eqn:Ha.
      * eexists _, _, _. split; [reflexivity |]. split; [done | done].
      * eexists _, _, _. split; [reflexivity |].
        split; [by intros [? ?] |]. intros _. by exists ffsi.
  - eexists _, _, _. split; [reflexivity |]. split; [done | done].
Qed.

(** The forwarding loop stops at the first event that carries an error. *)
Lemma forward_logs_until_error (pre post : list LogEvent) (le : LogEvent)
    (e : GoError) :
  Forall (fun x => LogEvent_Err x = None) pre ->
  LogEvent_Err le = Some e ->
  forward_logs (pre ++ le :: post) = (map LogEvent_Msg pre, Some e).
Proof.
  intros Hpre Hle. induction Hpre as [|x pre Hx Hpre IH]; simpl.
  - by rewrite Hle.
  - by rewrite Hx, IH.
Qed.

Lemma forward_logs_all (events : list LogEvent) :
  Forall (fun x => LogEvent_Err x = None) events ->
  forward_logs events = (map LogEvent_Msg events, None).
Proof.
  intros H. induction H as [|x l Hx Hl IH]; simpl; [done |].
  by rewrite Hx, IH.
Qed.

(** X19.  [ArchiveWatch] fails where [ArchiveStatus] fails: whenever
    [ArchiveStatus] returns an error, [ArchiveWatch] returns the same
    error in the same state, has sent nothing on the output channel, and
    has neither parsed the cid nor called Powergate. *)
Theorem ArchiveWatch_fails_like_ArchiveStatus {St : Type}
    (cid_Cast : list Byte.byte -> Cid + GoError)
    (FFS_WatchLogs :
       PowClient St -> string -> Cid -> string -> St ->
       St * (list LogEvent * option GoError))
    (Failed : Z) (b : Buckets St) (key : string) (st st' : St)
    (status : Z) (msg : string) (e : GoError) :
  ArchiveStatus Failed b key st = (st', Done (status, msg, Some e)) ->
  ArchiveWatch cid_Cast FFS_WatchLogs b key st = (st', Done ([], Some e)).
Proof.
  unfold ArchiveStatus, ArchiveWatch, bind, call, ret.
  destruct (FFSInstances_Get _ _ _) as [st1 [ffsi | e']]; simpl.
  - destruct (String.eqb _ ""); [by intros [= <- _ _ <-] |].
    destruct (FFSArchive_Aborted _); [by intros [= <- _ _ <-] |].
    discriminate.
  - by intros [= <- _ _ <-].
Qed.

Lemma ArchiveWatch_fails_like_ArchiveStatus_witness :
  ArchiveWatch demo_cid_Cast (demo_WatchLogs demo_events)
    (demo_Buckets (Some (demo_PowClient None))
       (inl (ffs_record "job-1" 3 true "stopped by operator" "")))
    "k" []
  = (["ffsinstances.get"],
     Done ([], Some (Errorf
       "job status tracking was aborted: stopped by operator"))).
Proof.
  apply (ArchiveWatch_fails_like_ArchiveStatus demo_cid_Cast
           (demo_WatchLogs demo_events) 3
           (demo_Buckets (Some (demo_PowClient None))
              (inl (ffs_record "job-1" 3 true "stopped by operator" "")))
           "k" [] ["ffsinstances.get"] 3 "").
  reflexivity.
Defined.

(** [ArchiveWatch] once the record is read and names a job that is not
    aborted. *)
Lemma ArchiveWatch_watching {St : Type}
    (cid_Cast : list Byte.byte -> Cid + GoError)
    (FFS_WatchLogs :
       PowClient St -> string -> Cid -> string -> St ->
       St * (list LogEvent * option GoError))
    (b : Buckets St) (key : string) (st st1 : St) (ffsi : FFSInstance) :
  let current := FFSArchives_Current (FFSInstance_Archives ffsi) in
  FFSInstances_Get (Buckets_ffsCol b) key st = (st1, inl ffsi) ->
  FFSArchive_JobID current <> "" ->
  FFSArchive_Aborted current = false ->
  ArchiveWatch cid_Cast FFS_WatchLogs b key st =
    match cid_Cast (FFSArchive_Cid current) with
    | inr e => (st1, Done ([], Some (wrap "parsing current archive cid: " e)))
    | inl c =>
        match Buckets_pgClient b with
        | None =>
            (st1, Panic ("runtime error: "
                   +:+ "invalid memory address or nil pointer dereference"))
        | Some pg =>
            match FFS_WatchLogs pg (FFSInstance_FFSToken ffsi) c
                    (FFSArchive_JobID current) st1 with
            | (st2, (events, Some e)) =>
                (st2, Done ([], Some (wrap
                   "watching log events in Powergate: " e)))
            | (st2, (events, None)) => (st2, Done (forward_logs events))
            end
        end
    end.
Proof.
  intros current Hget Hj Ha. unfold ArchiveWatch, bind, call, ret, panic.
  rewrite Hget. simpl. fold current.
  rewrite (eqb_false_of_ne _ _ Hj), Ha.
  destruct (cid_Cast (FFSArchive_Cid current)) as [c | e]; [| done].
  destruct (Buckets_pgClient b) as [pg|]; [| done].
  by destruct (FFS_WatchLogs _ _ _ _ _) as [st2 [events [e|]]].
Qed.

(** X20.  Once the record names a running job, its cid parses and the
    watch is started, [ArchiveWatch] sends on the output channel the
    messages of the events that precede the first event carrying an
    error, in their order, and returns that error; the events after it
    are not forwarded.  If the stream closes without such an event, every
    message is sent and nil is returned. *)
Theorem ArchiveWatch_forwards_until_error {St : Type}
    (cid_Cast : list Byte.byte -> Cid + GoError)
    (FFS_WatchLogs :
       PowClient St -> string -> Cid -> string -> St ->
       St * (list LogEvent * option GoError))
    (b : Buckets St) (pg : PowClient St) (key : string) (st st1 st2 : St)
    (ffsi : FFSInstance) (c : Cid) (events : list LogEvent) :
  let current := FFSArchives_Current (FFSInstance_Archives ffsi) in
  FFSInstances_Get (Buckets_ffsCol b) key st = (st1, inl ffsi) ->
  FFSArchive_JobID current <> "" ->
  FFSArchive_Aborted current = false ->
  cid_Cast (FFSArchive_Cid current) = inl c ->
  Buckets_pgClient b = Some pg ->
  FFS_WatchLogs pg (FFSInstance_FFSToken ffsi) c (FFSArchive_JobID current)
    st1 = (st2, (events, None)) ->
  (forall (pre post : list LogEvent) (le : LogEvent) (e : GoError),
     events = (pre ++ le :: post)%list ->
     Forall (fun x => LogEvent_Err x = None) pre ->
     LogEvent_Err le = Some e ->
     ArchiveWatch cid_Cast FFS_WatchLogs b key st =
       (st2, Done (map LogEvent_Msg pre, Some e))) /\
  (Forall (fun x => LogEvent_Err x = None) events ->
   ArchiveWatch cid_Cast FFS_WatchLogs b key st =
     (st2, Done (map LogEvent_Msg events, None))).
Proof.
  intros current Hget Hj Ha Hc Hpg Hw.
  rewrite (ArchiveWatch_watching cid_Cast FFS_WatchLogs b key st st1 ffsi
             Hget Hj Ha).
  fold current. rewrite Hc, Hpg, Hw. split.
  - intros pre post le e -> Hpre Hle.
    by rewrite (forward_logs_until_error pre post le e Hpre Hle).
  - intros Hall. by rewrite (forward_logs_all events Hall).
Qed.

Lemma ArchiveWatch_forwards_until_error_witness :
  ArchiveWatch demo_cid_Cast (demo_WatchLogs demo_events)
    (demo_Buckets (Some (demo_PowClient None)) (inl running_record)) "k" []
  = (["ffsinstances.get"; "ffs.watchLogs"],
     Done (["queued"; "executing"], Some (Errorf "EOF"))).
Proof.
  destruct (ArchiveWatch_forwards_until_error demo_cid_Cast
              (demo_WatchLogs demo_events)
              (demo_Buckets (Some (demo_PowClient None))
                 (inl running_record))
              (demo_PowClient None) "k" [] ["ffsinstances.get"]
              ["ffsinstances.get"; "ffs.watchLogs"] running_record
              {| Cid_String := "bafy" |} demo_events)
    as [Hstop _].
  - reflexivity.
  - simpl. discriminate.
  - reflexivity.
  - reflexivity.
  - reflexivity.
  - reflexivity.
  - apply (Hstop
             [ {| LogEvent_Msg := "queued"; LogEvent_Err := None |};
               {| LogEvent_Msg := "executing"; LogEvent_Err := None |} ]
             [ {| LogEvent_Msg := "late"; LogEvent_Err := None |} ]
             {| LogEvent_Msg := ""; LogEvent_Err := Some (Errorf "EOF") |}
             (Errorf "EOF")).
    + reflexivity.
    + repeat constructor.
    + reflexivity.
Defined.

(** X21.  For a record that names a running job: if the cid of the
    archive does not parse, [ArchiveWatch] returns the error under
    "parsing current archive cid: ", sends nothing and makes no call to
    Powergate; if the cid parses and no Powergate client is configured,
    it panics on the nil client; if the watch cannot be started, it
    returns the error under "watching log events in Powergate: " and
    sends nothing. *)
Theorem ArchiveWatch_before_the_stream {St : Type}
    (cid_Cast : list Byte.byte -> Cid + GoError)
    (FFS_WatchLogs :
       PowClient St -> string -> Cid -> string -> St ->
       St * (list LogEvent * option GoError))
    (b : Buckets St) (key : string) (st st1 : St) (ffsi : FFSInstance) :
  let current := FFSArchives_Current (FFSInstance_Archives ffsi) in
  let r := ArchiveWatch cid_Cast FFS_WatchLogs b key st in
  FFSInstances_Get (Buckets_ffsCol b) key st = (st1, inl ffsi) ->
  FFSArchive_JobID current <> "" ->
  FFSArchive_Aborted current = false ->
  (forall e : GoError,
     cid_Cast (FFSArchive_Cid current) = inr e ->
     r = (st1, Done ([], Some (Errorf ("parsing current archive cid: "
                                       +:+ Error e))))) /\
  (forall c : Cid,
     cid_Cast (FFSArchive_Cid current) = inl c ->
     Buckets_pgClient b = None ->
     exists msg : string, r = (st1, Panic msg)) /\
  (forall (c : Cid) (pg : PowClient St) (st2 : St)
          (events : list LogEvent) (e : GoError),
     cid_Cast (FFSArchive_Cid current) = inl c ->
     Buckets_pgClient b = Some pg ->
     FFS_WatchLogs pg (FFSInstance_FFSToken ffsi) c
       (FFSArchive_JobID current) st1 = (st2, (events, Some e)) ->
     r = (st2, Done ([], Some (Errorf ("watching log events in Powergate: "
                                       +:+ Error e))))).
Proof.
  intros current r Hget Hj Ha. subst r.
  rewrite (ArchiveWatch_watching cid_Cast FFS_WatchLogs b key st st1 ffsi
             Hget Hj Ha).
  fold current. split; [| split].
  - by intros e ->.
  - intros c -> ->. by eexists.
  - intros c pg st2 events e -> -> Hw. by rewrite Hw.
Qed.

Lemma ArchiveWatch_before_the_stream_witness :
  exists msg : string,
    ArchiveWatch demo_cid_Cast (demo_WatchLogs demo_events)
      (demo_Buckets None (inl running_record)) "k" []
    = (["ffsinstances.get"], Panic msg).
Proof.
  destruct (ArchiveWatch_before_the_stream demo_cid_Cast
              (demo_WatchLogs demo_events)
              (demo_Buckets None (inl running_record)) "k" []
              ["ffsinstances.get"] running_record)
    as (_ & Hnil & _).
  - reflexivity.
  - simpl. discriminate.
  - reflexivity.
  - apply (Hnil {| Cid_String := "bafy" |}); reflexivity.
Defined.

(** ** The store id *)

(** X22.  [storeIDAtKey] returns an id and a nil error whenever the key
    holds a value, whether or not the value parses as a UUID: the error of
    the parser is never returned.  It returns an error exactly when the
    datastore fails with an error that neither is nor wraps
    [ErrNotFound], and a nil id with a nil error exactly when the key is
    reported as not found. *)
Theorem storeIDAtKey_results (UUID : Type)
    (uuid_ParseBytes : list Byte.byte -> UUID * option GoError)
    (ds : Datastore) (key : string) :
  let r := storeIDAtKey UUID uuid_ParseBytes ds key in
  (forall idv : list Byte.byte,
     Datastore_Get ds key = inl idv ->
     r = (Some (fst (uuid_ParseBytes idv)), None)) /\
  (forall err : DsError,
     snd r = Some err <->
     Datastore_Get ds key = inr err /\ errors_Is_ErrNotFound err = false) /\
  (r = (None, None) <->
   exists err : DsError,
     Datastore_Get ds key = inr err /\ errors_Is_ErrNotFound err = true).
Proof.
  intros r. subst r. unfold storeIDAtKey.
  destruct (Datastore_Get ds key) as [idv | err0].
  - destruct (uuid_ParseBytes idv) as [id perr] eqn:Hparse. simpl.
    split; [intros ? [= <-]; by rewrite Hparse |]. split.
    + intros err. split; [discriminate | by intros [? _]].
    + split; [discriminate | by intros (? & ? & _)].
  - split; [discriminate |].
    destruct (errors_Is_ErrNotFound err0) eqn:Hnf; simpl; split.
    + intros err. split; [discriminate |]. intros [[= <-] H]. congruence.
    + split; [by exists err0 | done].
    + intros err. split; [by intros [= <-] | by intros [[= <-] _]].
    + split; [discriminate |]. intros (err & [= <-] & H). congruence.
Qed.

(** ** Options *)

Lemma collect_options_snoc (opts : list BucketOption) (opt : BucketOption) :
  collect_options (opts ++ [opt]) = opt (collect_options opts).
Proof. unfold collect_options. by rewrite fold_left_app. Qed.

(** X23.  Options are applied in the order given: the last option that
    sets a field decides it and leaves the two other fields as the
    earlier options set them. *)
Theorem collect_options_last_wins (opts : list BucketOption)
    (n : string) (k : option (list Byte.byte)) (t : Token) :
  let args := collect_options opts in
  collect_options (opts ++ [WithNewBucketName n]) =
    {| BucketOptions_Name := n; BucketOptions_Key := BucketOptions_Key args;
       BucketOptions_Token := BucketOptions_Token args |} /\
  collect_options (opts ++ [WithNewBucketKey k]) =
    {| BucketOptions_Name := BucketOptions_Name args; BucketOptions_Key := k;
       BucketOptions_Token := BucketOptions_Token args |} /\
  collect_options (opts ++ [WithNewBucketToken t]) =
    {| BucketOptions_Name := BucketOptions_Name args;
       BucketOptions_Key := BucketOptions_Key args;
       BucketOptions_Token := t |} /\
  collect_options [] = zero_BucketOptions.
Proof. intros args. by rewrite !collect_options_snoc. Qed.

(** ** SaveSafe *)

(** X24.  [SaveSafe] does not panic; it makes one [Save] call, on the
    normalised record, and returns the error of that call unchanged
    together with the normalised record.  Saving the returned record
    again submits the very same record. *)
Theorem SaveSafe_submits_normalised_once {St : Type} (b : Buckets St)
    (dbID : string) (bucket : Bucket) (opts : option Token) (st : St) :
  let saved := ensureNoNulls bucket in
  let save := Collection_Save (Buckets_Collection b) dbID saved opts in
  SaveSafe b dbID bucket opts st = (fst (save st), Done (saved, snd (save st)))
  /\
  forall st1 : St,
    SaveSafe b dbID saved opts st1 =
      (fst (save st1), Done (saved, snd (save st1))).
Proof.
  intros saved save. split; [apply SaveSafe_submits |].
  intros st1. rewrite SaveSafe_submits. subst save saved.
  assert (ensureNoNulls (ensureNoNulls bucket) = ensureNoNulls bucket) as ->.
  { by rewrite (ensureNoNulls_closed_form (ensureNoNulls bucket)),
         !ensureNoNulls_closed_form. }
  reflexivity.
Qed.

(** ** Null members *)

(** X25.  On a save event the script raises, for every author, when the
    patch has no member [items]; and it raises for the owner when the
    patch names a path and the item map of the instance is null. *)
Theorem ValidatorFunc_save_raises_on_null
    (event : Event) (author : string) (patch : JsonPatch) :
  patch_type (event_patch event) = "save" ->
  patch_json_patch (event_patch event) = Some patch ->
  (jp_items patch = None ->
   forall instance : option Bucket,
     ValidatorFunc event author instance = TypeError) /\
  (forall (k : string) (p : option PatchItem)
          (rest : list (string * option PatchItem)) (inst : Bucket),
     jp_items patch = Some ((k, p) :: rest) ->
     Bucket_Items inst = None ->
     author = Bucket_Owner inst ->
     ValidatorFunc event author (Some inst) = TypeError).
Proof.
  intros Ht Hp. unfold ValidatorFunc. rewrite Ht, Hp. simpl. split.
  - by intros ->.
  - intros k p rest inst -> Hnil ->. simpl.
    unfold save_iteration. simpl. rewrite String.eqb_refl, Hnil.
    destruct p as [p|]; [| done].
    rewrite String.eqb_refl. simpl. by destruct (p_acl p).
Qed.

Lemma ValidatorFunc_save_raises_on_null_witness :
  ValidatorFunc (save_event None cid_patch_items) "O" (Some archived_bucket)
  = TypeError.
Proof.
  destruct (ValidatorFunc_save_raises_on_null
              (save_event None cid_patch_items) "O"
              {| jp_owner := None; jp_items := Some cid_patch_items |}
              eq_refl eq_refl) as [_ Hnull].
  apply (Hnull "a.txt"
           (Some {| p_cid := Some "c2"; p_acl := None;
                    p_created_at := None; p_updated_at := Some 7 |}) []
           archived_bucket).
  - reflexivity.
  - reflexivity.
  - reflexivity.
Defined.
